(** * Planning Poker: the room session server

    A shallow embedding of the two socket.io servers of the repository
    (the [GameState] server with the small deck and the immediate reveal,
    and the [RoomState] server with the Fibonacci deck and the three second
    countdown), and the properties of the room state machine.

    The two servers share every handler up to three points: the deck, the
    head-count guard of [start-voting], and whether the reveal is immediate or
    deferred through [setTimeout].  The handlers below are written once over a
    [Variant] record holding these three points. *)

From Stdlib Require Import Ascii String QArith Qround Lqa.
From stdpp Require Import base list strings.

Local Open Scope string_scope.

(** ** JavaScript values *)

(** A JavaScript number.  The finite doubles are taken as exact rationals;
    [NaN] is what [0 / 0] gives.  The infinities are not represented: the one
    division of the program has a zero divisor only when its dividend is zero. *)
Inductive number :=
| Num (q : Q)
| NaN.

(** What a socket may carry as the argument of a message: the annotations
    [playerName: string] and [vote: number] are erased at run time and the
    handlers test [typeof] themselves. *)
Inductive jsvalue :=
| JUndefined
| JNull
| JBoolean (b : bool)
| JNumber (n : number)
| JString (s : string)
| JObject.

Definition num_add (a b : number) : number :=
  match a, b with
  | Num x, Num y => Num (x + y)
  | _, _ => NaN
  end.

Definition num_mul (a b : number) : number :=
  match a, b with
  | Num x, Num y => Num (x * y)
  | _, _ => NaN
  end.

(** [a / b]; [0 / 0] is [NaN]. *)
Definition num_div (a b : number) : number :=
  match a, b with
  | Num x, Num y => if Qeq_bool y 0 then NaN else Num (x / y)
  | _, _ => NaN
  end.

(** [Math.round]: the nearest integer, a tie going up. *)
Definition Math_round (a : number) : number :=
  match a with
  | Num x => Num (inject_Z (Qfloor (x + (1 # 2))))
  | NaN => NaN
  end.

Definition num_of_nat (n : nat) : number := Num (inject_Z (Z.of_nat n)).

(** [deck.includes(vote)] for a deck of integer literals. *)
Definition includes (deck : list Z) (n : number) : bool :=
  match n with
  | Num q => existsb (fun d => Qeq_bool q (inject_Z d)) deck
  | NaN => false
  end.

(** ** Strings

    A JavaScript string is held as its UTF-8 bytes. *)

(** The string with the given bytes. *)
Definition utf8 (bytes : list nat) : string :=
  fold_right (fun b s => String (ascii_of_nat b) s) EmptyString bytes.

(** The characters that [String.prototype.trim] strips, the WhiteSpace and
    LineTerminator code points, each as its UTF-8 bytes: U+0009 to U+000D,
    U+0020, U+00A0, U+1680, U+2000 to U+200A, U+2028, U+2029, U+202F, U+205F,
    U+3000 and U+FEFF. *)
Definition white_space : list string :=
  map utf8
    [[9]; [10]; [11]; [12]; [13]; [32];
     [194; 160];
     [225; 154; 128];
     [226; 128; 128]; [226; 128; 129]; [226; 128; 130]; [226; 128; 131];
     [226; 128; 132]; [226; 128; 133]; [226; 128; 134]; [226; 128; 135];
     [226; 128; 136]; [226; 128; 137]; [226; 128; 138];
     [226; 128; 168]; [226; 128; 169];
     [226; 128; 175];
     [226; 129; 159];
     [227; 128; 128];
     [239; 187; 191]]%nat.

(** The string is one white space character. *)
Definition is_white_space (s : string) : bool :=
  existsb (String.eqb s) white_space.

(** [String.prototype.trimStart]: a white space character takes one, two or
    three bytes. *)
Fixpoint trim_start (s : string) : string :=
  match s with
  | EmptyString => EmptyString
  | String a s1 =>
      if is_white_space (String a EmptyString) then trim_start s1
      else
        match s1 with
        | EmptyString => s
        | String b s2 =>
            if is_white_space (String a (String b EmptyString)) then trim_start s2
            else
              match s2 with
              | EmptyString => s
              | String c s3 =>
                  if is_white_space (String a (String b (String c EmptyString)))
                  then trim_start s3
                  else s
              end
        end
  end.

(** [String.prototype.trimEnd]: once the rest is trimmed at its end, the
    string ends with white space only when the whole of it is one white
    space character. *)
Fixpoint trim_end (s : string) : string :=
  match s with
  | EmptyString => EmptyString
  | String c s' =>
      let r := trim_end s' in
      if is_white_space (String c r) then EmptyString else String c r
  end.

(** [String.prototype.trim] *)
Definition trim (s : string) : string := trim_end (trim_start s).

Arguments is_white_space : simpl never.

(** ** The JavaScript [Map]

    Keys are socket ids.  A [Map] iterates in insertion order and [set] on a
    key already present keeps its place, so the map is an association list
    updated in place. *)
Module JsMap.

Abbreviation t V := (list (string * V)) (only parsing).

Definition keys {V} (m : t V) : list string := m.*1.
Definition values {V} (m : t V) : list V := m.*2.
Definition entries {V} (m : t V) : list (string * V) := m.
Definition size {V} (m : t V) : nat := length m.
Definition clear {V} : t V := [].

Fixpoint get {V} (k : string) (m : t V) : option V :=
  match m with
  | [] => None
  | (k', v) :: m' => if bool_decide (k = k') then Some v else get k m'
  end.

Definition has {V} (k : string) (m : t V) : bool :=
  match get k m with Some _ => true | None => false end.

Fixpoint set {V} (k : string) (v : V) (m : t V) : t V :=
  match m with
  | [] => [(k, v)]
  | (k', v') :: m' =>
      if bool_decide (k = k') then (k, v) :: m' else (k', v') :: set k v m'
  end.

Definition delete {V} (k : string) (m : t V) : t V :=
  filter (fun kv => kv.1 <> k) m.

End JsMap.

(** ** The room *)

Record Player := {
  id : string;
  name : string;
  connected : bool;
}.

Record Vote := {
  playerId : string;
  playerName : string;
  vote : number;
}.

Inductive Phase := waiting | voting | results.

Definition Phase_eqb (a b : Phase) : bool :=
  match a, b with
  | waiting, waiting | voting, voting | results, results => true
  | _, _ => false
  end.

(** [GameState] in the first server, [RoomState] in the second. *)
Record RoomState := {
  players : JsMap.t Player;
  votes : JsMap.t Vote;
  gamePhase : Phase;
  roomId : string;
}.

Record RoomStateUpdate := {
  update_players : list Player;
  update_gamePhase : Phase;
  update_votes : option (list (string * Vote));
}.

Record VotingResult := {
  result_votes : list Vote;
  result_average : number;
}.

Record VoteCountUpdate := {
  votedCount : nat;
  totalPlayers : nat;
}.

(** What [io.to(roomId).emit] sends to the room. *)
Inductive Emit :=
| game_state_update (u : RoomStateUpdate)
| voting_started
| vote_count_update (u : VoteCountUpdate)
| start_countdown
| voting_complete (r : VotingResult).

(** The points where the two servers differ. *)
Record Variant := {
  deck : list Z;
  minPlayers : option nat;
  countdown : bool;
}.

(** The first server: deck 1, 2, 3, 5, 10; voting starts with two players or
    more; the results are revealed by the vote that completes the round. *)
Definition game_server : Variant :=
  {| deck := [1; 2; 3; 5; 10]%Z; minPlayers := Some 2%nat; countdown := false |}.

(** The second server: Fibonacci deck; voting starts unconditionally; the
    results are revealed by a callback scheduled three seconds later. *)
Definition room_server : Variant :=
  {| deck := [1; 2; 3; 5; 8; 13; 21; 34; 55; 89]%Z; minPlayers := None;
     countdown := true |}.

(** The process: the room and the reveal callbacks that [setTimeout] holds.
    All callbacks are the same closure with the same delay, so their number
    is all there is to know about them. *)
Record Server := {
  room : RoomState;
  timers : nat;
}.

Definition initial : Server :=
  {| room := {| players := JsMap.clear; votes := JsMap.clear;
                gamePhase := waiting; roomId := "main-room" |};
     timers := 0 |}.

Definition with_players (p : JsMap.t Player) (s : RoomState) : RoomState :=
  {| players := p; votes := s.(votes); gamePhase := s.(gamePhase);
     roomId := s.(roomId) |}.

Definition with_votes (v : JsMap.t Vote) (s : RoomState) : RoomState :=
  {| players := s.(players); votes := v; gamePhase := s.(gamePhase);
     roomId := s.(roomId) |}.

Definition with_gamePhase (p : Phase) (s : RoomState) : RoomState :=
  {| players := s.(players); votes := s.(votes); gamePhase := p;
     roomId := s.(roomId) |}.

Definition with_room (r : RoomState) (w : Server) : Server :=
  {| room := r; timers := w.(timers) |}.

(** [broadcastGameState] / [broadcastRoomState] *)
Definition broadcastRoomState (s : RoomState) : Emit :=
  game_state_update
    {| update_players := JsMap.values s.(players);
       update_gamePhase := s.(gamePhase);
       update_votes :=
         if Phase_eqb s.(gamePhase) results
         then Some (JsMap.entries s.(votes))
         else None |}.

(** The result computation of the reveal:
    [sum = votes.reduce((acc, v) => acc + v.vote, 0)] and
    [Math.round((sum / votes.length) * 10) / 10]. *)
Definition vote_sum (vs : list Vote) : number :=
  fold_left (fun acc v => num_add acc v.(vote)) vs (Num 0).

Definition average (vs : list Vote) : number :=
  num_div
    (Math_round (num_mul (num_div (vote_sum vs) (num_of_nat (length vs)))
                         (Num (inject_Z 10))))
    (Num (inject_Z 10)).

Definition votingResult (s : RoomState) : VotingResult :=
  let vs := JsMap.values s.(votes) in
  {| result_votes := vs; result_average := average vs |}.

(** What the event loop can run next: a message of a socket, or a reveal
    callback that has come due. *)
Inductive Message :=
| JoinGame (playerName : jsvalue)
| StartVoting
| SubmitVote (v : jsvalue)
| NextRound
| Disconnect.

Inductive Event :=
| FromSocket (sid : string) (m : Message)
| TimerFired.

(** ** The handlers

    Each handler takes the id of the socket it is bound to and returns the new
    process state with what it emitted to the room, in order.  Console output
    and the membership of the socket.io room ([socket.join]) are left out. *)
Section Handlers.

Variable cfg : Variant.

(** [socket.on('join-game', ...)] *)
Definition join_game (sid : string) (playerName : jsvalue) (w : Server)
  : Server * list Emit :=
  match playerName with
  | JString nm =>
      if bool_decide (nm = "") then (w, [])
      else
        let player := {| id := sid; name := trim nm; connected := true |} in
        let s := with_players (JsMap.set sid player w.(room).(players)) w.(room) in
        (with_room s w, [broadcastRoomState s])
  | _ => (w, [])
  end.

(** [socket.on('start-voting', ...)] *)
Definition start_voting (w : Server) : Server * list Emit :=
  let go :=
    let s := with_votes JsMap.clear (with_gamePhase voting w.(room)) in
    (with_room s w, [voting_started; broadcastRoomState s]) in
  match cfg.(minPlayers) with
  | Some n => if (n <=? JsMap.size w.(room).(players))%nat then go else (w, [])
  | None => go
  end.

(** The callback handed to [setTimeout]: it runs once for each time it was
    scheduled. *)
Definition reveal (w : Server) : Server * list Emit :=
  match w.(timers) with
  | O => (w, [])
  | S n =>
      let s := with_gamePhase results w.(room) in
      ({| room := s; timers := n |}, [voting_complete (votingResult s)])
  end.

(** [socket.on('submit-vote', ...)] *)
Definition submit_vote (sid : string) (v : jsvalue) (w : Server)
  : Server * list Emit :=
  match v with
  | JNumber n =>
      if negb (includes cfg.(deck) n) then (w, [])
      else if Phase_eqb w.(room).(gamePhase) voting
              && JsMap.has sid w.(room).(players) then
        match JsMap.get sid w.(room).(players) with
        | None => (w, [])
        | Some player =>
            let voteData :=
              {| playerId := sid; playerName := player.(name); vote := n |} in
            let s := with_votes (JsMap.set sid voteData w.(room).(votes)) w.(room) in
            let voteCountUpdate :=
              {| votedCount := JsMap.size s.(votes);
                 totalPlayers := JsMap.size s.(players) |} in
            if (JsMap.size s.(votes) =? JsMap.size s.(players))%nat then
              if cfg.(countdown) then
                ({| room := s; timers := S w.(timers) |},
                 [vote_count_update voteCountUpdate; start_countdown])
              else
                let s' := with_gamePhase results s in
                (with_room s' w,
                 [vote_count_update voteCountUpdate;
                  voting_complete (votingResult s')])
            else (with_room s w, [vote_count_update voteCountUpdate])
        end
      else (w, [])
  | _ => (w, [])
  end.

(** [socket.on('next-round', ...)] *)
Definition next_round (w : Server) : Server * list Emit :=
  let s := with_votes JsMap.clear (with_gamePhase waiting w.(room)) in
  (with_room s w, [broadcastRoomState s]).

(** [socket.on('disconnect', ...)] *)
Definition disconnect (sid : string) (w : Server) : Server * list Emit :=
  if JsMap.has sid w.(room).(players) then
    let s := with_votes (JsMap.delete sid w.(room).(votes))
               (with_players (JsMap.delete sid w.(room).(players)) w.(room)) in
    (with_room s w, [broadcastRoomState s])
  else (w, []).

(** The dispatch of the event loop. *)
Definition handle (e : Event) (w : Server) : Server * list Emit :=
  match e with
  | FromSocket sid (JoinGame nm) => join_game sid nm w
  | FromSocket _ StartVoting => start_voting w
  | FromSocket sid (SubmitVote v) => submit_vote sid v w
  | FromSocket _ NextRound => next_round w
  | FromSocket sid Disconnect => disconnect sid w
  | TimerFired => reveal w
  end.

Definition step (e : Event) (w : Server) : Server := (handle e w).1.

(** The state after a sequence of events, the earliest first. *)
Definition run (es : list Event) (w : Server) : Server :=
  fold_left (fun w e => step e w) es w.

End Handlers.

Import JsMap.

(** ** The properties

    The predicates the theorems are stated with. *)

(** Every vote belongs to a player of the room. *)
Definition votes_of_players (w : Server) : Prop :=
  keys w.(room).(votes) ⊆ keys w.(room).(players).

(** The keys of both maps are unique. *)
Definition unique_keys (w : Server) : Prop :=
  NoDup (keys w.(room).(players)) /\ NoDup (keys w.(room).(votes)).

(** The value is a number equal to one of the cards of the deck. *)
Definition in_deck (cfg : Variant) (v : jsvalue) : Prop :=
  exists q d, v = JNumber (Num q) /\ (d ∈ cfg.(deck)) /\ (q == inject_Z d)%Q.

(** Every recorded vote carries a card of the deck. *)
Definition votes_in_deck (cfg : Variant) (w : Server) : Prop :=
  forall v, v ∈ values w.(room).(votes) -> includes cfg.(deck) v.(vote) = true.

(** The three edges of the cycle waiting, voting, results, waiting. *)
Definition cycle_edge (p p' : Phase) : bool :=
  match p, p' with
  | waiting, voting | voting, results | results, waiting => true
  | _, _ => false
  end.

(** The phase only ever changes along an edge of the cycle. *)
Definition strict_cycle (cfg : Variant) : Prop :=
  forall es e,
    let w := run cfg es initial in
    let w' := step cfg e w in
    w'.(room).(gamePhase) <> w.(room).(gamePhase) ->
    cycle_edge w.(room).(gamePhase) w'.(room).(gamePhase) = true.



(** The value of a recorded vote, as a rational. *)
Definition vote_value (v : Vote) : Q :=
  match v.(vote) with Num q => q | NaN => 0 end.

(** The sum of the vote values divided by the number of votes. *)
Definition mean (vs : list Vote) : Q :=
  (foldr Qplus 0 (vote_value <$> vs) / inject_Z (Z.of_nat (length vs)))%Q.

(** [r] is [x] rounded to one decimal place, a tie going up: [r] is a whole
    number of tenths and [x] lies from [r - 0.05], included, to [r + 0.05],
    excluded. *)
Definition rounds_half_up_to_tenths (x r : Q) : Prop :=
  (exists k : Z, r == inject_Z k / 10)%Q /\
  (r - (1 # 20) <= x)%Q /\ (x < r + (1 # 20))%Q.

(** The vote carries a number, not [NaN]. *)
Definition is_number (v : Vote) : Prop := exists q, v.(vote) = Num q.

(** Every entry sits under the id it carries, and every player is marked
    connected. *)
Definition entries_keyed (w : Server) : Prop :=
  (forall k p, (k, p) ∈ w.(room).(players) -> p.(id) = k /\ p.(connected) = true) /\
  (forall k v, (k, v) ∈ w.(room).(votes) -> v.(playerId) = k).

(** Every vote of the list is a number from [lo] to [hi]. *)
Definition votes_within (lo hi : Z) (vs : list Vote) : Prop :=
  Forall (fun v => exists q, v.(vote) = Num q /\
                             (inject_Z lo <= q)%Q /\ (q <= inject_Z hi)%Q) vs.

(** The string begins with a white space character. *)
Definition starts_with_space (s : string) : bool :=
  match s with
  | EmptyString => false
  | String a s1 =>
      is_white_space (String a EmptyString) ||
      match s1 with
      | EmptyString => false
      | String b s2 =>
          is_white_space (String a (String b EmptyString)) ||
          match s2 with
          | EmptyString => false
          | String c _ =>
              is_white_space (String a (String b (String c EmptyString)))
          end
      end
  end.

(** The string is empty or its first character is not white space. *)
Definition starts_without_space (s : string) : Prop :=
  starts_with_space s = false.

(** The names held by the room, of players and on votes, are trimmed. *)
Definition names_trimmed (w : Server) : Prop :=
  (forall k p, (k, p) ∈ w.(room).(players) -> trim p.(name) = p.(name)) /\
  (forall k v, (k, v) ∈ w.(room).(votes) -> trim v.(playerName) = v.(playerName)).

(** ** The client

    The React component [App]: its state hooks, the listeners it installs on
    its socket and the handlers of its form and buttons.  A handler returns
    the new state with the messages it emits, as events of its socket for the
    server.  Rendering is left out. *)

(** What a number is once it has gone through the socket: socket.io sends
    its payloads as JSON, which keeps a finite number and writes [NaN] as
    [null]. *)
Definition json_number (n : number) : jsvalue :=
  match n with
  | Num q => JNumber (Num q)
  | NaN => JNull
  end.

(** [{ ...prev, gamePhase: 'results' }] *)
Definition show_results (prev : RoomStateUpdate) : RoomStateUpdate :=
  {| update_players := prev.(update_players);
     update_gamePhase := results;
     update_votes := prev.(update_votes) |}.

Module App.

(** The cards of the voting screen. *)
Definition cardValues : list Z := [1; 2; 3; 5; 10]%Z.

(** A result as the client holds it, [{ votes: Vote[]; average: number }]:
    the average is what JSON made of the number the server computed. *)
Record Result := {
  votes : list Vote;
  average : jsvalue;
}.

(** The result that reaches the client when the server emits [r].  The
    players, the phase, the counts and the recorded votes, which are cards of
    the deck, are read back from JSON as they were written. *)
Definition received (r : VotingResult) : Result :=
  {| votes := r.(result_votes); average := json_number r.(result_average) |}.

(** The state hooks.  [socket] is [null] until the effect has run; a socket
    is known by its id. *)
Record State := {
  socket : option string;
  playerName : string;
  isJoined : bool;
  gameState : RoomStateUpdate;
  selectedCard : option number;
  voteCount : VoteCountUpdate;
  results : option Result;
}.

Definition initial : State :=
  {| socket := None; playerName := ""; isJoined := false;
     gameState := {| update_players := []; update_gamePhase := waiting;
                     update_votes := None |};
     selectedCard := None;
     voteCount := {| votedCount := 0; totalPlayers := 0 |};
     results := None |}.

(** The effect: [setSocket(io(socketUrl))]. *)
Definition setSocket (sid : string) (c : State) : State :=
  {| socket := Some sid; playerName := c.(playerName); isJoined := c.(isJoined);
     gameState := c.(gameState); selectedCard := c.(selectedCard);
     voteCount := c.(voteCount); results := c.(results) |}.

(** The name field: [setPlayerName(e.target.value)]. *)
Definition setPlayerName (nm : string) (c : State) : State :=
  {| socket := c.(socket); playerName := nm; isJoined := c.(isJoined);
     gameState := c.(gameState); selectedCard := c.(selectedCard);
     voteCount := c.(voteCount); results := c.(results) |}.

(** The listeners: [game-state-update], [voting-started],
    [vote-count-update] and [voting-complete].  No listener is installed for
    [start-countdown]. *)
Definition receive (e : Emit) (c : State) : State :=
  match e with
  | game_state_update state =>
      {| socket := c.(socket); playerName := c.(playerName);
         isJoined := c.(isJoined); gameState := state;
         selectedCard := c.(selectedCard); voteCount := c.(voteCount);
         results := c.(results) |}
  | voting_started =>
      {| socket := c.(socket); playerName := c.(playerName);
         isJoined := c.(isJoined); gameState := c.(gameState);
         selectedCard := None; voteCount := c.(voteCount);
         results := None |}
  | vote_count_update count =>
      {| socket := c.(socket); playerName := c.(playerName);
         isJoined := c.(isJoined); gameState := c.(gameState);
         selectedCard := c.(selectedCard); voteCount := count;
         results := c.(results) |}
  | start_countdown => c
  | voting_complete result =>
      {| socket := c.(socket); playerName := c.(playerName);
         isJoined := c.(isJoined); gameState := show_results c.(gameState);
         selectedCard := c.(selectedCard); voteCount := c.(voteCount);
         results := Some (received result) |}
  end.

(** The client after the messages of the room have reached it, in order.
    The payloads pass through JSON on the way: [receive] reads the result of
    a [voting-complete] through [received]. *)
Definition deliver (out : list Emit) (c : State) : State :=
  fold_left (fun c e => receive e c) out c.

(** [handleJoinGame] *)
Definition handleJoinGame (c : State) : State * list Event :=
  match c.(socket) with
  | Some sid =>
      if bool_decide (trim c.(playerName) = "") then (c, [])
      else
        ({| socket := c.(socket); playerName := c.(playerName);
            isJoined := true; gameState := c.(gameState);
            selectedCard := c.(selectedCard); voteCount := c.(voteCount);
            results := c.(results) |},
         [FromSocket sid (JoinGame (JString (trim c.(playerName))))])
  | None => (c, [])
  end.

(** [handleStartVoting] *)
Definition handleStartVoting (c : State) : State * list Event :=
  match c.(socket) with
  | Some sid => (c, [FromSocket sid StartVoting])
  | None => (c, [])
  end.

(** [handleCardSelect] *)
Definition handleCardSelect (value : number) (c : State) : State * list Event :=
  if Phase_eqb c.(gameState).(update_gamePhase) voting then
    ({| socket := c.(socket); playerName := c.(playerName);
        isJoined := c.(isJoined); gameState := c.(gameState);
        selectedCard := Some value; voteCount := c.(voteCount);
        results := c.(results) |},
     match c.(socket) with
     | Some sid => [FromSocket sid (SubmitVote (JNumber value))]
     | None => []
     end)
  else (c, []).

(** [handleNextRound] *)
Definition handleNextRound (c : State) : State * list Event :=
  match c.(socket) with
  | Some sid =>
      ({| socket := c.(socket); playerName := c.(playerName);
          isJoined := c.(isJoined); gameState := c.(gameState);
          selectedCard := None; voteCount := c.(voteCount);
          results := None |},
       [FromSocket sid NextRound])
  | None => (c, [])
  end.

End App.

(** The client shows the players and the phase that the server holds. *)
Definition in_sync (c : App.State) (w : Server) : Prop :=
  c.(App.gameState).(update_players) = values w.(room).(players) /\
  c.(App.gameState).(update_gamePhase) = w.(room).(gamePhase).

(** ** Sample runs

    The rooms the theorems are applied to further down. *)

(** A vote for the card [z], cast by socket [sid] under its id as a name. *)
Definition ballot (sid : string) (z : Z) : Vote :=
  {| playerId := sid; playerName := sid; vote := Num (inject_Z z) |}.

(** A room holding the votes 3, 5 and 8. *)
Definition votes_3_5_8 : RoomState :=
  {| players := clear;
     votes := [("a", ballot "a" 3); ("b", ballot "b" 5); ("c", ballot "c" 8)];
     gamePhase := voting; roomId := "main-room" |}.

(** Ann and Bob have joined, voting has started and Ann has voted 3. *)
Definition ann_has_voted (cfg : Variant) : Server :=
  run cfg [FromSocket "a" (JoinGame (JString "Ann"));
           FromSocket "b" (JoinGame (JString "Bob"));
           FromSocket "a" StartVoting;
           FromSocket "a" (SubmitVote (JNumber (Num 3)))] initial.

(** Ann, who has voted 3, joins again as Annie. *)
Definition ann_joins_again : Server :=
  (join_game "a" (JString "Annie") (ann_has_voted game_server)).1.

(** Ann, who has voted 3, changes her vote to 5. *)
Definition ann_votes_again : Server :=
  (submit_vote room_server "a" (JNumber (Num 5)) (ann_has_voted room_server)).1.

(** Bob votes 5 after Ann: everybody has voted. *)
Definition bob_votes (cfg : Variant) : Server * list Emit :=
  submit_vote cfg "b" (JNumber (Num 5)) (ann_has_voted cfg).


(** Ann joins the empty room. *)
Definition ann_joins : Event := FromSocket "a" (JoinGame (JString "Ann")).

(** Ann joins, starts the vote of the second server alone, votes 3 and
    leaves while the countdown runs. *)
Definition everyone_left : Server :=
  run room_server [ann_joins;
                   FromSocket "a" StartVoting;
                   FromSocket "a" (SubmitVote (JNumber (Num 3)));
                   FromSocket "a" Disconnect] initial.

(** Ann, Bob and Carol have joined the first server, voting has started, Ann
    has voted 3 and Bob 5. *)
Definition carol_has_not_voted : Server :=
  run game_server [ann_joins;
                   FromSocket "b" (JoinGame (JString "Bob"));
                   FromSocket "c" (JoinGame (JString "Carol"));
                   FromSocket "a" StartVoting;
                   FromSocket "a" (SubmitVote (JNumber (Num 3)));
                   FromSocket "b" (SubmitVote (JNumber (Num 5)))] initial.

(** The client of Ann once she has typed her name with spaces around it. *)
Definition ann_types_her_name : App.State :=
  App.setPlayerName "  Ann " (App.setSocket "a" App.initial).

(** The client of Bob after the snapshot of the room where Ann has voted. *)
Definition bob_watches (cfg : Variant) : App.State :=
  App.deliver [broadcastRoomState (ann_has_voted cfg).(room)]
    (App.setSocket "b" App.initial).


(** ** Tactics *)

(** Case analysis on the key comparison of [get] and [set]. *)
Ltac case_key :=
  match goal with
  | |- context [bool_decide (?a = ?b)] =>
      destruct (bool_decide_reflect (a = b))
  end.

(** Unfolds a handler at the head of the goal and splits its tests. *)
Ltac handler_cases :=
  repeat match goal with
         | |- context [match ?x with _ => _ end] =>
             match type of x with
             | sumbool _ _ => fail 1
             | _ => destruct x eqn:?
             end
         end; simpl.

(** Decides whether a message is among the few a handler emitted. *)
Ltac emitted :=
  repeat match goal with
         | H : _ ∈ [] |- _ => by apply elem_of_nil in H
         | H : _ ∈ _ :: _ |- _ =>
             apply elem_of_cons in H as [H|H]; [try discriminate H|]
         | H : ex _ |- _ => destruct H
         | |- _ ∈ _ :: _ => apply elem_of_cons; (by left) || right
         end.

(** Linear arithmetic over the rationals once a division by ten is read as a
    multiplication by a tenth. *)
Ltac by_tenths :=
  unfold Qdiv in *; change (/ 10)%Q with (1 # 10)%Q in *; lra.

(** ** Facts about the [Map] *)

Module JsMapFacts.
Import JsMap.

Section Facts.
Context {V : Type}.
Implicit Types (m : t V) (k : string) (v : V).

Lemma has_keys k m : has k m = true <-> k ∈ keys m.
Proof.
  unfold has, keys. induction m as [|[k' v'] m IH]; simpl.
  - split; [discriminate | intros H; inversion H].
  - rewrite elem_of_cons. case_key; subst.
    + tauto.
    + rewrite IH. split; [by right | by intros [?|?]].
Qed.

Lemma has_false_keys k m : has k m = false <-> k ∉ keys m.
Proof.
  rewrite <- has_keys. destruct (has k m); split; congruence.
Qed.

Lemma has_get k m : has k m = true <-> is_Some (get k m).
Proof.
  unfold has. destruct (get k m); split; intros H;
    try done; try (by eexists); by destruct H.
Qed.

Lemma keys_set k v m k' : k' ∈ keys (set k v m) <-> k' = k \/ k' ∈ keys m.
Proof.
  unfold keys. induction m as [|[k0 v0] m IH]; simpl.
  - rewrite elem_of_cons. tauto.
  - case_key; subst; simpl; rewrite !elem_of_cons.
    + tauto.
    + rewrite IH. tauto.
Qed.

Lemma keys_delete k m k' : k' ∈ keys (delete k m) <-> k' <> k /\ k' ∈ keys m.
Proof.
  unfold keys, delete. rewrite !list_elem_of_fmap. split.
  - intros ([a b] & -> & Hin). apply list_elem_of_filter in Hin as [Hne Hin].
    split; [done | by exists (a, b)].
  - intros (Hne & [a b] & -> & Hin). exists (a, b). split; [done|].
    apply list_elem_of_filter. done.
Qed.

Lemma get_set_eq k v m : get k (set k v m) = Some v.
Proof.
  induction m as [|[k0 v0] m IH]; simpl.
  - by rewrite bool_decide_eq_true_2.
  - case_key; simpl.
    + by rewrite bool_decide_eq_true_2.
    + by rewrite bool_decide_eq_false_2.
Qed.

Lemma get_set_ne k k' v m : k' <> k -> get k' (set k v m) = get k' m.
Proof.
  intros Hne. induction m as [|[k0 v0] m IH]; simpl.
  - by rewrite bool_decide_eq_false_2.
  - case_key; subst; simpl.
    + by rewrite !bool_decide_eq_false_2.
    + by rewrite IH.
Qed.

Lemma size_set_has k v m : has k m = true -> size (set k v m) = size m.
Proof.
  unfold has, size. induction m as [|[k0 v0] m IH]; simpl; [done|].
  case_key; simpl; [done|]. intros Hhas. by rewrite IH.
Qed.

Lemma size_set_new k v m : has k m = false -> size (set k v m) = S (size m).
Proof.
  unfold has, size. induction m as [|[k0 v0] m IH]; simpl; [done|].
  case_key; simpl; [done|]. intros Hhas. by rewrite IH.
Qed.

Lemma keys_set_has k v m : has k m = true -> keys (set k v m) = keys m.
Proof.
  unfold has, keys. induction m as [|[k0 v0] m IH]; simpl; [done|].
  case_key; subst; simpl; [done|]. intros Hhas. f_equal. by apply IH.
Qed.


Lemma values_set k v m x : x ∈ values (set k v m) -> x = v \/ x ∈ values m.
Proof.
  unfold values. induction m as [|[k0 v0] m IH]; simpl.
  - intros [->|Hin%elem_of_nil]%elem_of_cons; [by left|done].
  - case_key; simpl; rewrite !elem_of_cons; [tauto|].
    intros [->|Hin]; [tauto|]. apply IH in Hin. tauto.
Qed.

Lemma values_delete k m x : x ∈ values (delete k m) -> x ∈ values m.
Proof.
  unfold values, delete. rewrite !list_elem_of_fmap.
  intros (kv & -> & [_ Hin]%list_elem_of_filter). by exists kv.
Qed.

Lemma has_size_pos k m : has k m = true -> (0 < size m)%nat.
Proof. destruct m; [done | simpl; lia]. Qed.

Lemma get_values k v m : get k m = Some v -> v ∈ values m.
Proof.
  unfold values. induction m as [|[k0 v0] m IH]; simpl; [done|].
  case_key.
  - intros [= ->]. left.
  - intros Hget. right. by apply IH.
Qed.

Lemma NoDup_keys_set k v m : NoDup (keys m) -> NoDup (keys (set k v m)).
Proof.
  unfold keys. induction m as [|[k0 v0] m IH]; simpl.
  - intros _. apply NoDup_singleton.
  - rewrite NoDup_cons. intros [Hk0 Hm].
    case_key; subst; simpl; apply NoDup_cons; [done|].
    split; [|by apply IH].
    intros Hin. apply (keys_set k v m k0) in Hin as [->|Hin]; done.
Qed.

Lemma NoDup_keys_delete k m : NoDup (keys m) -> NoDup (keys (delete k m)).
Proof.
  unfold keys, delete. induction m as [|[k0 v0] m IH]; [done|].
  rewrite fmap_cons, NoDup_cons. intros [Hk0 Hm].
  rewrite filter_cons. case_decide; [rewrite fmap_cons|by apply IH].
  apply NoDup_cons. split; [|by apply IH].
  intros Hin. apply (keys_delete k m k0) in Hin as [_ Hin]. done.
Qed.

Lemma get_delete_ne k k' m : k' <> k -> get k' (delete k m) = get k' m.
Proof.
  intros Hne. unfold delete. induction m as [|[k0 v0] m IH]; [done|].
  rewrite filter_cons. simpl. destruct (decide (k0 <> k)) as [Hk0|Hk0]; simpl.
  - by rewrite IH.
  - apply dec_stable in Hk0. subst k0. rewrite IH.
    by rewrite bool_decide_eq_false_2.
Qed.

Lemma has_delete_eq k m : has k (delete k m) = false.
Proof. apply has_false_keys. by intros [Hne _]%keys_delete. Qed.

Lemma has_delete_ne k k' m : k' <> k -> has k' (delete k m) = has k' m.
Proof. intros Hne. unfold has. by rewrite get_delete_ne. Qed.

Lemma delete_absent k m : has k m = false -> delete k m = m.
Proof.
  unfold has, delete. induction m as [|[k0 v0] m IH]; [done|].
  simpl. case_key; [done|]. intros Hm. rewrite filter_cons. simpl.
  rewrite decide_True by done. by rewrite IH.
Qed.

Lemma set_absent k v m : has k m = false -> set k v m = (m ++ [(k, v)])%list.
Proof.
  unfold has. induction m as [|[k0 v0] m IH]; [done|].
  simpl. case_key; [done|]. intros Hm. by rewrite IH.
Qed.

Lemma delete_set_absent k v m : has k m = false -> delete k (set k v m) = m.
Proof.
  intros Hm. rewrite (set_absent _ _ _ Hm). unfold delete.
  rewrite filter_app, filter_cons. simpl. rewrite decide_False by (by intros ?).
  rewrite filter_nil, app_nil_r. by apply delete_absent.
Qed.

Lemma size_delete_has k m :
  NoDup (keys m) -> has k m = true -> S (size (delete k m)) = size m.
Proof.
  unfold size, keys. induction m as [|[k0 v0] m IH]; [done|].
  rewrite fmap_cons, NoDup_cons. simpl. intros [Hk0 Hm] Hk.
  unfold delete. rewrite filter_cons. simpl.
  destruct (decide (k0 <> k)) as [Hne|Heq]; simpl.
  - f_equal. apply IH; [done|]. revert Hk. unfold has. simpl.
    by rewrite bool_decide_eq_false_2.
  - apply dec_stable in Heq. subst k0. f_equal.
    change (filter (fun kv : string * V => kv.1 <> k) m) with (delete k m).
    rewrite delete_absent; [done|]. by apply has_false_keys.
Qed.

Lemma entries_set k v m k' x :
  (k', x) ∈ set k v m -> (k', x) = (k, v) \/ (k', x) ∈ m.
Proof.
  induction m as [|[k0 v0] m IH]; simpl.
  - intros [->|Hin%elem_of_nil]%elem_of_cons; [by left|done].
  - case_key; rewrite !elem_of_cons; [tauto|].
    intros [->|Hin]; [tauto|]. apply IH in Hin. tauto.
Qed.

Lemma entries_delete k m k' x : (k', x) ∈ delete k m -> (k', x) ∈ m.
Proof. unfold delete. by intros [_ Hin]%list_elem_of_filter. Qed.

End Facts.
End JsMapFacts.

(** ** The invariants of the room *)

Import JsMapFacts.

Section Invariants.

Variable cfg : Variant.

Lemma join_game_votes sid nm w :
  (join_game sid nm w).1.(room).(votes) = w.(room).(votes).
Proof. unfold join_game. handler_cases; done. Qed.

Lemma join_game_gamePhase sid nm w :
  (join_game sid nm w).1.(room).(gamePhase) = w.(room).(gamePhase).
Proof. unfold join_game. handler_cases; done. Qed.

Lemma join_game_keys sid nm w k :
  k ∈ keys w.(room).(players) ->
  k ∈ keys (join_game sid nm w).1.(room).(players).
Proof.
  unfold join_game. handler_cases; try done.
  intros Hk. apply keys_set. by right.
Qed.

Lemma step_votes_of_players e w :
  votes_of_players w -> votes_of_players (step cfg e w).
Proof.
  unfold votes_of_players, step. intros Hinv.
  destruct e as [sid [nm| |v| |]|]; simpl.
  - rewrite join_game_votes. intros k Hk. apply join_game_keys. by apply Hinv.
  - unfold start_voting. handler_cases; try done; apply list_subseteq_nil.
  - unfold submit_vote. handler_cases; try done;
      intros k [->|Hk]%keys_set; try (by apply Hinv);
      apply has_keys; match goal with H : _ && _ = true |- _ =>
        by apply andb_prop in H as [_ ?] end.
  - apply list_subseteq_nil.
  - unfold disconnect. handler_cases; try done.
    intros k [Hne Hk]%keys_delete. apply keys_delete. split; [done|by apply Hinv].
  - unfold reveal. handler_cases; done.
Qed.

Lemma step_unique_keys e w : unique_keys w -> unique_keys (step cfg e w).
Proof.
  unfold unique_keys, step. intros [Hp Hv].
  destruct e as [sid [nm| |v| |]|]; simpl.
  - unfold join_game. handler_cases; try done. split; [|done].
    by apply NoDup_keys_set.
  - unfold start_voting. handler_cases; try done; split; try done; apply NoDup_nil_2.
  - unfold submit_vote. handler_cases; try done; split; try done;
      by apply NoDup_keys_set.
  - split; [done | apply NoDup_nil_2].
  - unfold disconnect. handler_cases; try done.
    split; by apply NoDup_keys_delete.
  - unfold reveal. handler_cases; done.
Qed.

(** An invariant of [step] that holds at the start holds after any run. *)
Lemma run_invariant (I : Server -> Prop) :
  (forall e w, I w -> I (step cfg e w)) ->
  forall es w, I w -> I (run cfg es w).
Proof.
  intros Hstep es. induction es as [|e es IH]; intros w Hw; simpl; [done|].
  apply IH, Hstep, Hw.
Qed.

(** In every state the server reaches there are no more votes than players. *)
Lemma votes_no_more_than_players es :
  (size (run cfg es initial).(room).(votes)
   <= size (run cfg es initial).(room).(players))%nat.
Proof.
  assert (Hsub : votes_of_players (run cfg es initial)).
  { apply run_invariant; [apply step_votes_of_players|]. apply list_subseteq_nil. }
  assert (Huniq : unique_keys (run cfg es initial)).
  { apply run_invariant; [apply step_unique_keys|]. split; apply NoDup_nil_2. }
  destruct Huniq as [_ Hvotes].
  pose proof (submseteq_length _ _ (NoDup_submseteq _ _ Hvotes Hsub)) as Hlen.
  unfold keys in Hlen. by rewrite !length_fmap in Hlen.
Qed.

Lemma run_snoc es e w : run cfg (es ++ [e]) w = step cfg e (run cfg es w).
Proof. unfold run. by rewrite fold_left_app. Qed.

End Invariants.

(** ** The deck *)

Lemma includes_in_deck cfg n :
  includes cfg.(deck) n = true <-> in_deck cfg (JNumber n).
Proof.
  unfold in_deck. destruct n as [q|]; simpl.
  - rewrite existsb_exists. split.
    + intros (d & Hd & Heq). exists q, d. split; [done|]. split.
      * by apply list_elem_of_In.
      * by apply Qeq_bool_iff.
    + intros (q' & d & [= <-] & Hd & Heq). exists d. split.
      * by apply list_elem_of_In.
      * by apply Qeq_bool_iff.
  - split; [done|]. by intros (q & d & [=] & _).
Qed.

Lemma not_in_deck_rejected cfg sid v w :
  ~ in_deck cfg v -> submit_vote cfg sid v w = (w, []).
Proof.
  intros Hout. unfold submit_vote. destruct v as [| | |n| |]; try done.
  destruct (includes cfg.(deck) n) eqn:Hinc; [|done].
  by apply includes_in_deck in Hinc.
Qed.

(** ** The theorems *)

(** C1. Starting from the empty room, after any sequence of events (joins,
    start-voting, votes, next-round, disconnects, and reveal callbacks coming
    due) every key of the vote map is a key of the player map; and the step
    that handles a disconnect leaves the departing socket in neither map. *)
Theorem votes_keys_subset_of_players_keys (cfg : Variant) (es : list Event) :
  let w := run cfg es initial in
  (keys w.(room).(votes) ⊆ keys w.(room).(players)) /\
  forall sid,
    let w' := step cfg (FromSocket sid Disconnect) w in
    (sid ∉ keys w'.(room).(players)) /\ (sid ∉ keys w'.(room).(votes)).
Proof.
  intros w.
  assert (Hinv : votes_of_players w).
  { apply run_invariant; [apply step_votes_of_players|].
    unfold votes_of_players; simpl. apply list_subseteq_nil. }
  split; [exact Hinv|]. intros sid. unfold step; simpl. unfold disconnect.
  destruct (has sid w.(room).(players)) eqn:Hhas; simpl.
  - split; intros [Hne _]%keys_delete; done.
  - apply has_false_keys in Hhas. split; [done|].
    intros Hin. by apply Hhas, Hinv.
Qed.

(** C4. A vote whose value is not a number of the deck changes nothing: the
    process state after the handler is the state before it (players, votes,
    phase, pending reveals), and nothing is emitted, so the vote count that
    the room sees does not move. *)
Theorem submit_vote_outside_deck_is_ignored
  (cfg : Variant) (sid : string) (v : jsvalue) (w : Server) :
  ~ in_deck cfg v ->
  let w' := (submit_vote cfg sid v w).1 in
  w' = w /\
  (submit_vote cfg sid v w).2 = [] /\
  size w'.(room).(votes) = size w.(room).(votes) /\
  w'.(room).(votes) = w.(room).(votes) /\
  w'.(room).(players) = w.(room).(players) /\
  w'.(room).(gamePhase) = w.(room).(gamePhase).
Proof.
  intros Hout. simpl. by rewrite (not_in_deck_rejected _ _ _ _ Hout).
Qed.

(** C9. In the server that asks for two players, start-voting with fewer
    than two players in the room does nothing: the state is the one before
    (phase and votes included) and nothing is emitted, [voting-started]
    included. *)
Theorem start_voting_needs_two_players (w : Server) :
  (size w.(room).(players) < 2)%nat ->
  start_voting game_server w = (w, []) /\
  (start_voting game_server w).1.(room).(gamePhase) = w.(room).(gamePhase) /\
  (start_voting game_server w).1.(room).(votes) = w.(room).(votes) /\
  voting_started ∉ (start_voting game_server w).2.
Proof.
  intros Hlt.
  assert (Hnoop : start_voting game_server w = (w, [])).
  { unfold start_voting; simpl minPlayers; cbv beta iota.
    destruct (Nat.leb_spec 2 (size w.(room).(players))) as [Hge|_]; [lia|done]. }
  rewrite Hnoop. simpl. repeat split. apply not_elem_of_nil.
Qed.

(** What [submit-vote] does once its three tests have passed. *)
Lemma submit_vote_accepted cfg sid n w player :
  w.(room).(gamePhase) = voting ->
  get sid w.(room).(players) = Some player ->
  includes cfg.(deck) n = true ->
  let voteData := {| playerId := sid; playerName := player.(name); vote := n |} in
  let s := with_votes (set sid voteData w.(room).(votes)) w.(room) in
  let upd := vote_count_update {| votedCount := size s.(votes);
                                  totalPlayers := size s.(players) |} in
  submit_vote cfg sid (JNumber n) w =
    if (size s.(votes) =? size s.(players))%nat then
      if cfg.(countdown)
      then ({| room := s; timers := S w.(timers) |}, [upd; start_countdown])
      else (with_room (with_gamePhase results s) w,
            [upd; voting_complete (votingResult (with_gamePhase results s))])
    else (with_room s w, [upd]).
Proof.
  intros Hphase Hget Hinc. unfold submit_vote, has.
  rewrite Hinc, Hphase, Hget. reflexivity.
Qed.

(** C10. A join, whatever its argument and whatever the phase, leaves the
    vote map, the phase and the pending reveals as they were.  So when a
    socket that has voted in the current round joins again under another
    name, its vote stays where it was with the name it carried when it was
    cast, and the number of votes is the same, while the player map now holds
    the new name. *)
Theorem join_game_keeps_votes_and_phase
  (sid : string) (playerName : jsvalue) (w : Server) :
  let w' := (join_game sid playerName w).1 in
  w'.(room).(votes) = w.(room).(votes) /\
  w'.(room).(gamePhase) = w.(room).(gamePhase) /\
  w'.(timers) = w.(timers) /\
  forall nm v,
    playerName = JString nm ->
    nm <> "" ->
    w.(room).(gamePhase) = voting ->
    get sid w.(room).(votes) = Some v ->
    w'.(room).(gamePhase) = voting /\
    get sid w'.(room).(votes) = Some v /\
    size w'.(room).(votes) = size w.(room).(votes) /\
    get sid w'.(room).(players)
      = Some {| id := sid; name := trim nm; connected := true |}.
Proof.
  simpl. split; [apply join_game_votes|]. split; [apply join_game_gamePhase|].
  split; [unfold join_game; handler_cases; done|].
  intros nm v -> Hnm Hphase Hvote. unfold join_game.
  rewrite bool_decide_eq_false_2 by done. simpl.
  repeat split; try done. apply get_set_eq.
Qed.

(** C8. During voting, a vote of the deck sent by a player who has already
    voted replaces the value of that player's vote and leaves the number of
    votes as it was: the map has the same keys in the same order, the other
    votes are untouched, and the count that is emitted is the old one. *)
Theorem submit_vote_again_overwrites
  (cfg : Variant) (sid : string) (v : jsvalue) (n : number)
  (w : Server) (player : Player) :
  w.(room).(gamePhase) = voting ->
  get sid w.(room).(players) = Some player ->
  has sid w.(room).(votes) = true ->
  v = JNumber n ->
  in_deck cfg v ->
  let w' := (submit_vote cfg sid v w).1 in
  get sid w'.(room).(votes)
    = Some {| playerId := sid; playerName := player.(name); vote := n |} /\
  size w'.(room).(votes) = size w.(room).(votes) /\
  keys w'.(room).(votes) = keys w.(room).(votes) /\
  (forall k, k <> sid -> get k w'.(room).(votes) = get k w.(room).(votes)) /\
  (vote_count_update {| votedCount := size w.(room).(votes);
                        totalPlayers := size w.(room).(players) |}
     ∈ (submit_vote cfg sid v w).2).
Proof.
  intros Hphase Hget Hvoted -> Hdeck. apply includes_in_deck in Hdeck.
  rewrite (submit_vote_accepted _ _ _ _ _ Hphase Hget Hdeck).
  set (vd := {| playerId := sid; playerName := player.(name); vote := n |}).
  assert (Hsize : size (set sid vd w.(room).(votes)) = size w.(room).(votes))
    by by apply size_set_has.
  assert (Hkeys : keys (set sid vd w.(room).(votes)) = keys w.(room).(votes))
    by by apply keys_set_has.
  simpl. rewrite Hsize.
  destruct (_ =? _)%nat; [destruct cfg.(countdown)|]; simpl;
    (split; [apply get_set_eq|]); (split; [done|]); (split; [done|]);
    (split; [intros k Hk; by apply get_set_ne|]); left.
Qed.

(** A disconnect never reveals: it keeps the phase and the pending reveals,
    and all it may emit is the state of the room. *)
Lemma disconnect_never_completes sid w :
  (disconnect sid w).1.(room).(gamePhase) = w.(room).(gamePhase) /\
  (disconnect sid w).1.(timers) = w.(timers) /\
  forall e, e ∈ (disconnect sid w).2 -> exists u, e = game_state_update u.
Proof.
  unfold disconnect. destruct (has sid w.(room).(players)); simpl.
  - repeat split. intros e [->|Hin]%elem_of_cons; [by eexists|].
    by apply elem_of_nil in Hin.
  - repeat split. intros e Hin. by apply elem_of_nil in Hin.
Qed.


(** C2. For a vote that passes the three tests (the phase is [voting], the
    sender is a player, the value is in the deck), let the all-voted condition
    be: right after the vote is recorded the number of votes equals the number
    of players, and there is at least one player.  In the server with the
    immediate reveal the phase becomes [results] exactly when the condition
    holds, and [voting-complete] is emitted exactly when it holds, with the
    result of the room.  In the server with the countdown a reveal is
    scheduled, and [start-countdown] emitted, exactly when the condition
    holds; the phase is still [voting], and the scheduled callback moves the
    room to [results] and emits [voting-complete].  A disconnect, in any
    state, keeps the phase, schedules nothing and emits only the room state. *)
Theorem round_completes_iff_all_voted
  (cfg : Variant) (sid : string) (v : jsvalue) (w : Server) :
  w.(room).(gamePhase) = voting ->
  has sid w.(room).(players) = true ->
  in_deck cfg v ->
  let w' := (submit_vote cfg sid v w).1 in
  let out := (submit_vote cfg sid v w).2 in
  let all_voted :=
    size w'.(room).(votes) = size w'.(room).(players) /\
    (0 < size w'.(room).(players))%nat in
  has sid w'.(room).(votes) = true /\
  (if cfg.(countdown) then
     (w'.(timers) = S w.(timers) <-> all_voted) /\
     (start_countdown ∈ out <-> all_voted) /\
     (~ all_voted -> w'.(timers) = w.(timers)) /\
     w'.(room).(gamePhase) = voting /\
     (forall r, voting_complete r ∉ out) /\
     (all_voted ->
      (reveal w').1.(room).(gamePhase) = results /\
      (reveal w').2 = [voting_complete (votingResult (reveal w').1.(room))] /\
      result_votes (votingResult (reveal w').1.(room)) = values w'.(room).(votes))
   else
     (w'.(room).(gamePhase) = results <-> all_voted) /\
     ((exists r, voting_complete r ∈ out) <-> all_voted) /\
     (~ all_voted -> w'.(room).(gamePhase) = voting) /\
     (all_voted -> voting_complete (votingResult w'.(room)) ∈ out) /\
     w'.(timers) = w.(timers)) /\
  (forall leaver w0,
     (disconnect leaver w0).1.(room).(gamePhase) = w0.(room).(gamePhase) /\
     (disconnect leaver w0).1.(timers) = w0.(timers) /\
     forall e, e ∈ (disconnect leaver w0).2 -> exists u, e = game_state_update u).
Proof.
  intros Hphase Hsid Hdeck.
  destruct (Hdeck) as (q & d & -> & _). apply includes_in_deck in Hdeck.
  pose proof (has_size_pos _ _ Hsid) as Hpos.
  destruct (proj1 (has_get _ _) Hsid) as [player Hget].
  rewrite (submit_vote_accepted _ _ _ _ _ Hphase Hget Hdeck).
  set (vd := {| playerId := sid; playerName := player.(name); vote := Num q |}).
  assert (Hrec : has sid (set sid vd w.(room).(votes)) = true).
  { apply has_get. rewrite get_set_eq. by eexists. }
  split; [|split; [|apply disconnect_never_completes]].
  - simpl. destruct (_ =? _)%nat; [destruct cfg.(countdown)|]; exact Hrec.
  - simpl. destruct (Nat.eqb_spec (size (set sid vd w.(room).(votes)))
                       (size w.(room).(players))) as [Heq|Hne];
      destruct cfg.(countdown); simpl.
    all: repeat split; try done; try lia; try (intros [? _]; done).
    all: try (intros; exfalso; emitted; congruence).
    all: try (intros; eexists; emitted).
    all: try (intros; emitted).
    all: intros Hin; emitted.
Qed.

(** ** The phase transitions *)

(** C6, as stated, fails in both servers.  In the first, two players join and
    start voting, and a next-round takes the room from [voting] back to
    [waiting].  In the second, one player joins, starts voting, votes, the
    reveal comes due, and a start-voting takes the room from [results] to
    [voting]. *)
Lemma strict_cycle_fails : ~ strict_cycle game_server /\ ~ strict_cycle room_server.
Proof.
  split; intros Hcycle.
  - specialize (Hcycle [FromSocket "a" (JoinGame (JString "Ann"));
                        FromSocket "b" (JoinGame (JString "Bob"));
                        FromSocket "a" StartVoting]
                       (FromSocket "b" NextRound)).
    vm_compute in Hcycle. discriminate Hcycle. discriminate.
  - specialize (Hcycle [FromSocket "a" (JoinGame (JString "Ann"));
                        FromSocket "a" StartVoting;
                        FromSocket "a" (SubmitVote (JNumber (Num 8)));
                        TimerFired]
                       (FromSocket "a" StartVoting)).
    vm_compute in Hcycle. discriminate Hcycle. discriminate.
Qed.

(** C6, amended. Whenever an event changes the phase, the event and the new
    phase are one of these: a start-voting, to [voting]; a next-round, to
    [waiting]; a vote accepted during [voting] in the server with the
    immediate reveal, to [results]; a reveal callback coming due, to
    [results]. *)
Theorem phase_changes_by_operation (cfg : Variant) (e : Event) (w : Server) :
  (step cfg e w).(room).(gamePhase) <> w.(room).(gamePhase) ->
  ((exists sid, e = FromSocket sid StartVoting) /\
   (step cfg e w).(room).(gamePhase) = voting) \/
  ((exists sid, e = FromSocket sid NextRound) /\
   (step cfg e w).(room).(gamePhase) = waiting) \/
  ((exists sid v, e = FromSocket sid (SubmitVote v) /\ in_deck cfg v) /\
   cfg.(countdown) = false /\
   w.(room).(gamePhase) = voting /\
   (step cfg e w).(room).(gamePhase) = results) \/
  (e = TimerFired /\ w.(timers) <> 0%nat /\
   (step cfg e w).(room).(gamePhase) = results).
Proof.
  unfold step. destruct e as [sid [nm| |v| |]|]; simpl.
  - rewrite join_game_gamePhase. done.
  - intros Hchg. left. split; [by exists sid|].
    revert Hchg. unfold start_voting. destruct cfg.(minPlayers) as [n|];
      [destruct (_ <=? _)%nat|]; simpl; done.
  - intros Hchg. right. right. left.
    destruct v as [| | |n| |]; try done.
    destruct (includes cfg.(deck) n) eqn:Hinc;
      [|exfalso; revert Hchg; unfold submit_vote; by rewrite Hinc].
    split; [exists sid, (JNumber n); split; [done|by apply includes_in_deck]|].
    revert Hchg. unfold submit_vote. rewrite Hinc. simpl.
    destruct (Phase_eqb w.(room).(gamePhase) voting) eqn:Hv; [|done].
    assert (w.(room).(gamePhase) = voting) as Hphase
      by (by destruct w.(room).(gamePhase)).
    clear Hv. handler_cases; done.
  - intros _. right. left. split; [by exists sid|done].
  - intros Hchg. exfalso. apply Hchg. apply disconnect_never_completes.
  - intros Hchg. right. right. right. split; [done|].
    revert Hchg. unfold reveal. destruct w.(timers); simpl; done.
Qed.

(** ** The countdown *)

Section Countdown.

Variable cfg : Variant.
Hypothesis Hcountdown : cfg.(countdown) = true.




End Countdown.



(** ** The average *)

Lemma rounds_half_up_unique x r r' :
  rounds_half_up_to_tenths x r -> rounds_half_up_to_tenths x r' -> (r' == r)%Q.
Proof.
  intros ([k Hk] & Hlo & Hhi) ([k' Hk'] & Hlo' & Hhi').
  rewrite Hk in Hlo, Hhi. rewrite Hk' in Hlo', Hhi'. rewrite Hk, Hk'.
  assert (Hle : (inject_Z k' < inject_Z (k + 1))%Q).
  { rewrite inject_Z_plus. change (inject_Z 1) with 1%Q.
    revert Hlo' Hhi. generalize (inject_Z k) (inject_Z k'). intros; by_tenths. }
  assert (Hge : (inject_Z k < inject_Z (k' + 1))%Q).
  { rewrite inject_Z_plus. change (inject_Z 1) with 1%Q.
    revert Hlo Hhi'. generalize (inject_Z k) (inject_Z k'). intros; by_tenths. }
  rewrite <- Zlt_Qlt in Hle, Hge. by replace k' with k by lia.
Qed.

Lemma vote_sum_from vs a :
  Forall is_number vs ->
  exists s,
    fold_left (fun acc v => num_add acc v.(vote)) vs (Num a) = Num s /\
    (s == a + foldr Qplus 0 (vote_value <$> vs))%Q.
Proof.
  intros Hvs. revert a.
  induction Hvs as [|v vs [q Hq] _ IH]; intros a.
  - exists a. split; [done|]. simpl. lra.
  - rewrite fmap_cons. cbn [fold_left foldr]. rewrite Hq. cbn [num_add].
    destruct (IH (a + q)%Q) as (s & -> & Hs).
    exists s. split; [done|]. unfold vote_value at 1. rewrite Hq, Hs. lra.
Qed.

Lemma vote_sum_numbers vs :
  Forall is_number vs ->
  exists s, vote_sum vs = Num s /\ (s == foldr Qplus 0 (vote_value <$> vs))%Q.
Proof.
  intros Hvs. destruct (vote_sum_from vs 0 Hvs) as (s & Hs & Heq).
  exists s. split; [done|]. rewrite Heq. lra.
Qed.

(** The average of a non-empty list of numbers is the integer nearest to ten
    times their mean, a tie going up, over ten. *)
Lemma average_numbers vs :
  vs <> [] ->
  Forall is_number vs ->
  exists k : Z,
    average vs = Num (inject_Z k / 10) /\
    (inject_Z k <= mean vs * 10 + (1 # 2))%Q /\
    (mean vs * 10 + (1 # 2) < inject_Z k + 1)%Q.
Proof.
  intros Hne Hvs. destruct (vote_sum_numbers vs Hvs) as (s & Hs & Heq).
  unfold average. rewrite Hs. unfold num_of_nat.
  set (n := inject_Z (Z.of_nat (length vs))).
  assert (Hn : Qeq_bool n 0 = false).
  { apply not_true_is_false. intros Hz%Qeq_bool_iff.
    unfold n, Qeq in Hz. simpl in Hz. destruct vs; [done|]. simpl in Hz. lia. }
  cbn [num_div]. rewrite Hn. cbn [num_mul Math_round num_div].
  change (Qeq_bool (inject_Z 10) 0) with false. cbv iota.
  assert (Hx : (s / n * inject_Z 10 + (1 # 2) == mean vs * 10 + (1 # 2))%Q).
  { unfold mean. fold n. by rewrite Heq. }
  exists (Qfloor (s / n * inject_Z 10 + (1 # 2))). split; [done|]. split.
  - rewrite <- Hx. apply Qfloor_le.
  - rewrite <- Hx, <- (inject_Z_plus _ 1). apply Qlt_floor.
Qed.

Lemma step_votes_in_deck cfg e w :
  votes_in_deck cfg w -> votes_in_deck cfg (step cfg e w).
Proof.
  unfold votes_in_deck, step. intros Hinv.
  destruct e as [sid [nm| |v| |]|]; simpl.
  - by rewrite join_game_votes.
  - unfold start_voting. handler_cases; try done; by intros v ?%elem_of_nil.
  - unfold submit_vote. destruct v as [| | |n| |]; try done.
    destruct (includes cfg.(deck) n) eqn:Hinc; [|done]. simpl.
    handler_cases; try done; by intros x [->|Hx]%values_set; [|apply Hinv].
  - by intros v ?%elem_of_nil.
  - unfold disconnect. handler_cases; try done.
    intros v Hv%values_delete. by apply Hinv.
  - unfold reveal. handler_cases; done.
Qed.

(** In every state the server reaches the recorded votes are numbers. *)
Lemma recorded_votes_are_numbers cfg es :
  Forall is_number (values (run cfg es initial).(room).(votes)).
Proof.
  apply Forall_forall. intros v Hv.
  assert (Hinv : votes_in_deck cfg (run cfg es initial)).
  { apply run_invariant; [apply step_votes_in_deck|]. by intros x ?%elem_of_nil. }
  specialize (Hinv v Hv). unfold is_number.
  destruct v.(vote) as [q|]; [by exists q|done].
Qed.

(** C3. When the room holds at least one vote, all of them numbers, the
    average of the result is the sum of the vote values divided by their
    number, rounded to one decimal place with a tie going up: it is the only
    whole number of tenths [r] with [r - 0.05 <= mean < r + 0.05]. *)
Theorem result_average_rounds_half_up (s : RoomState) :
  values s.(votes) <> [] ->
  Forall is_number (values s.(votes)) ->
  exists r,
    result_votes (votingResult s) = values s.(votes) /\
    result_average (votingResult s) = Num r /\
    rounds_half_up_to_tenths (mean (values s.(votes))) r /\
    forall r', rounds_half_up_to_tenths (mean (values s.(votes))) r' -> (r' == r)%Q.
Proof.
  intros Hne Hnum.
  destruct (average_numbers _ Hne Hnum) as (k & Havg & Hlo & Hhi).
  assert (Hr : rounds_half_up_to_tenths (mean (values s.(votes))) (inject_Z k / 10)).
  { split; [by exists k|].
    revert Hlo Hhi. generalize (inject_Z k) (mean (values s.(votes))).
    intros y x Hlo Hhi. split; by_tenths. }
  exists (inject_Z k / 10)%Q. split; [done|]. split; [exact Havg|]. split; [exact Hr|].
  intros r' Hr'. by apply (rounds_half_up_unique _ _ _ Hr Hr').
Qed.

(** The two averages the specification works out, and the round of its
    scenario: votes 3, 5, 8 give 5.3; votes 2, 2 give 2; and in the first
    server A and B join, voting starts, A votes 5 and B votes 10, which
    completes the round with the average 7.5; in the second server A votes 5
    and B votes 8, and the callback reveals the average 6.5. *)
Example average_3_5_8 :
  average [ballot "a" 3; ballot "b" 5; ballot "c" 8] = Num (53 # 10).
Proof. reflexivity. Qed.

Example average_2_2 :
  exists r, average [ballot "a" 2; ballot "b" 2] = Num r /\ (r == 2)%Q.
Proof. exists (20 # 10). split; reflexivity. Qed.

Example round_of_two :
  handle game_server (FromSocket "b" (SubmitVote (JNumber (Num 10))))
    (run game_server
       [FromSocket "a" (JoinGame (JString "A"));
        FromSocket "b" (JoinGame (JString "B"));
        FromSocket "a" StartVoting;
        FromSocket "a" (SubmitVote (JNumber (Num 5)))] initial)
  = ({| room := {| players := [("a", {| id := "a"; name := "A"; connected := true |});
                               ("b", {| id := "b"; name := "B"; connected := true |})];
                   votes := [("a", {| playerId := "a"; playerName := "A"; vote := Num 5 |});
                             ("b", {| playerId := "b"; playerName := "B"; vote := Num 10 |})];
                   gamePhase := results; roomId := "main-room" |};
        timers := 0 |},
     [vote_count_update {| votedCount := 2; totalPlayers := 2 |};
      voting_complete
        {| result_votes := [{| playerId := "a"; playerName := "A"; vote := Num 5 |};
                            {| playerId := "b"; playerName := "B"; vote := Num 10 |}];
           result_average := Num (75 # 10) |}]).
Proof. reflexivity. Qed.

Example round_of_two_countdown :
  (reveal
     (run room_server
        [FromSocket "a" (JoinGame (JString "A"));
         FromSocket "b" (JoinGame (JString "B"));
         FromSocket "a" StartVoting;
         FromSocket "a" (SubmitVote (JNumber (Num 5)));
         FromSocket "b" (SubmitVote (JNumber (Num 8)))] initial)).2
  = [voting_complete
       {| result_votes := [{| playerId := "a"; playerName := "A"; vote := Num 5 |};
                           {| playerId := "b"; playerName := "B"; vote := Num 8 |}];
          result_average := Num (65 # 10) |}].
Proof. reflexivity. Qed.

(** ** Joining *)

(** A join whose argument is not a string, or is the empty string, is
    ignored. *)
Lemma join_game_invalid_name_ignored sid (nm : jsvalue) w :
  (forall s, nm = JString s -> s = "") -> join_game sid nm w = (w, []).
Proof.
  intros Hnm. unfold join_game. destruct nm as [| | | |s|]; try done.
  by rewrite (Hnm s eq_refl).
Qed.

(** Any other string passes the test, whatever is left of it once trimmed. *)
Lemma join_game_accepted sid nm w :
  nm <> "" ->
  get sid (join_game sid (JString nm) w).1.(room).(players)
    = Some {| id := sid; name := trim nm; connected := true |}.
Proof.
  intros Hnm. unfold join_game. rewrite bool_decide_eq_false_2 by done.
  apply get_set_eq.
Qed.

(** C5. The handler tests the name before it trims it.  On the empty room, a
    join of socket s1 with a name of three spaces, which is empty once
    trimmed, is not ignored: s1 becomes a player whose name is the empty
    string and the new room state is emitted. *)
Theorem join_game_blank_name_is_not_ignored :
  trim "   " = "" /\
  (join_game "s1" (JString "   ") initial).1.(room).(players)
    = [("s1", {| id := "s1"; name := ""; connected := true |})] /\
  (join_game "s1" (JString "   ") initial).1 <> initial /\
  (join_game "s1" (JString "   ") initial).2
    = [game_state_update
         {| update_players := [{| id := "s1"; name := ""; connected := true |}];
            update_gamePhase := waiting;
            update_votes := None |}].
Proof. repeat split. discriminate. Qed.

(** ** The theorems at work

    Each theorem that has hypotheses is applied to one of the sample runs. *)

Lemma submit_vote_outside_deck_is_ignored_witness :
  ~ in_deck game_server (JNumber (Num 8)) /\
  submit_vote game_server "b" (JNumber (Num 8)) (ann_has_voted game_server)
    = (ann_has_voted game_server, []).
Proof.
  assert (Hout : ~ in_deck game_server (JNumber (Num 8))).
  { intros Hin%includes_in_deck. discriminate Hin. }
  split; [exact Hout|].
  destruct (submit_vote_outside_deck_is_ignored game_server "b"
              (JNumber (Num 8)) (ann_has_voted game_server) Hout)
    as (Hw & Hemit & _).
  apply injective_projections; [exact Hw | exact Hemit].
Defined.

Lemma start_voting_needs_two_players_witness :
  (size (step game_server (FromSocket "a" (JoinGame (JString "Ann")))
           initial).(room).(players) < 2)%nat /\
  start_voting game_server
    (step game_server (FromSocket "a" (JoinGame (JString "Ann"))) initial)
  = (step game_server (FromSocket "a" (JoinGame (JString "Ann"))) initial, []).
Proof.
  split; [vm_compute; lia|].
  apply (start_voting_needs_two_players
           (step game_server (FromSocket "a" (JoinGame (JString "Ann"))) initial)).
  vm_compute; lia.
Defined.

Lemma join_game_keeps_votes_and_phase_witness :
  ann_joins_again.(room).(gamePhase) = voting /\
  get "a" ann_joins_again.(room).(votes)
    = Some {| playerId := "a"; playerName := "Ann"; vote := Num 3 |} /\
  size ann_joins_again.(room).(votes) = 1%nat /\
  get "a" ann_joins_again.(room).(players)
    = Some {| id := "a"; name := "Annie"; connected := true |}.
Proof.
  destruct (join_game_keeps_votes_and_phase "a" (JString "Annie")
              (ann_has_voted game_server)) as (_ & _ & _ & Hagain).
  apply (Hagain "Annie" {| playerId := "a"; playerName := "Ann"; vote := Num 3 |});
    [reflexivity | discriminate | reflexivity | reflexivity].
Defined.

Lemma submit_vote_again_overwrites_witness :
  get "a" ann_votes_again.(room).(votes)
    = Some {| playerId := "a"; playerName := "Ann"; vote := Num 5 |} /\
  size ann_votes_again.(room).(votes) = 1%nat.
Proof.
  destruct (submit_vote_again_overwrites room_server "a" (JNumber (Num 5)) (Num 5)
              (ann_has_voted room_server)
              {| id := "a"; name := "Ann"; connected := true |})
    as (Hvote & Hsize & _);
    [reflexivity | reflexivity | reflexivity | reflexivity
    | apply includes_in_deck; reflexivity |].
  split; [exact Hvote | exact Hsize].
Defined.

Lemma round_completes_iff_all_voted_witness :
  (bob_votes game_server).1.(room).(gamePhase) = results /\
  (voting_complete (votingResult (bob_votes game_server).1.(room))
     ∈ (bob_votes game_server).2) /\
  (bob_votes room_server).1.(room).(gamePhase) = voting /\
  (bob_votes room_server).1.(timers) = 1%nat.
Proof.
  destruct (round_completes_iff_all_voted game_server "b" (JNumber (Num 5))
              (ann_has_voted game_server))
    as (_ & (Hphase & _ & _ & Hemit & _) & _);
    [reflexivity | reflexivity | apply includes_in_deck; reflexivity |].
  destruct (round_completes_iff_all_voted room_server "b" (JNumber (Num 5))
              (ann_has_voted room_server))
    as (_ & (Htimer & _ & _ & Hvoting & _) & _);
    [reflexivity | reflexivity | apply includes_in_deck; reflexivity |].
  split; [apply Hphase; vm_compute; split; [reflexivity|lia]|].
  split; [apply Hemit; vm_compute; split; [reflexivity|lia]|].
  split; [exact Hvoting|].
  apply Htimer. vm_compute; split; [reflexivity|lia].
Defined.

Lemma phase_changes_by_operation_witness :
  (step game_server (FromSocket "b" NextRound)
     (ann_has_voted game_server)).(room).(gamePhase)
    <> (ann_has_voted game_server).(room).(gamePhase) /\
  (step game_server (FromSocket "b" NextRound)
     (ann_has_voted game_server)).(room).(gamePhase) = waiting.
Proof.
  assert (Hchg : (step game_server (FromSocket "b" NextRound)
                    (ann_has_voted game_server)).(room).(gamePhase)
                 <> (ann_has_voted game_server).(room).(gamePhase))
    by discriminate.
  split; [exact Hchg|].
  destruct (phase_changes_by_operation game_server (FromSocket "b" NextRound)
              (ann_has_voted game_server) Hchg)
    as [[_ Hp]|[[_ Hp]|[(_ & _ & _ & Hp)|(_ & _ & Hp)]]];
    try exact Hp; discriminate Hp.
Defined.


Lemma result_average_rounds_half_up_witness :
  values votes_3_5_8.(votes) <> [] /\
  exists r,
    result_average (votingResult votes_3_5_8) = Num r /\
    rounds_half_up_to_tenths (16 # 3) r /\
    (r == 53 # 10)%Q.
Proof.
  split; [discriminate|].
  destruct (result_average_rounds_half_up votes_3_5_8) as (r & _ & Havg & Hr & _);
    [discriminate | repeat constructor; eexists; reflexivity |].
  exists r. split; [exact Havg|].
  injection Havg as <-. split; [exact Hr | reflexivity].
Defined.

(** ** More about the server *)

(** A snapshot that a handler emits is taken from the room it leaves. *)
Lemma handle_snapshot cfg e w u :
  game_state_update u ∈ (handle cfg e w).2 ->
  game_state_update u = broadcastRoomState (handle cfg e w).1.(room).
Proof.
  destruct e as [sid [nm| |v| |]|]; simpl.
  - unfold join_game. handler_cases; intros Hin; emitted. exact Hin.
  - unfold start_voting. handler_cases; intros Hin; emitted; exact Hin.
  - unfold submit_vote. handler_cases; intros Hin; emitted.
  - intros Hin; emitted. exact Hin.
  - unfold disconnect. handler_cases; intros Hin; emitted. exact Hin.
  - unfold reveal. handler_cases; intros Hin; emitted.
Qed.

(** X1. Whatever the event, a state snapshot that the server emits is the
    snapshot of the room as the handler leaves it: the players in joining
    order, the new phase, and the votes only when that phase is [results].
    Outside [results] a snapshot never carries the votes. *)
Theorem snapshot_shows_the_new_state
  (cfg : Variant) (e : Event) (w : Server) (u : RoomStateUpdate) :
  game_state_update u ∈ (handle cfg e w).2 ->
  u.(update_players) = values (handle cfg e w).1.(room).(players) /\
  u.(update_gamePhase) = (handle cfg e w).1.(room).(gamePhase) /\
  (u.(update_gamePhase) = results ->
   u.(update_votes) = Some (entries (handle cfg e w).1.(room).(votes))) /\
  (u.(update_gamePhase) <> results -> u.(update_votes) = None).
Proof.
  intros Hin%handle_snapshot. injection Hin as ->. simpl.
  destruct (gamePhase _); simpl; repeat split; done.
Qed.

(** X2. A vote of the deck from a socket that is not a player of the room, or
    sent while the phase is not [voting], changes nothing and emits
    nothing. *)
Theorem submit_vote_out_of_turn_is_ignored
  (cfg : Variant) (sid : string) (v : jsvalue) (w : Server) :
  w.(room).(gamePhase) <> voting \/ has sid w.(room).(players) = false ->
  submit_vote cfg sid v w = (w, []).
Proof.
  intros Hout. unfold submit_vote. destruct v as [| | |n| |]; try done.
  destruct (negb (includes cfg.(deck) n)); [done|].
  destruct Hout as [Hphase|Hplayer].
  - destruct w.(room).(gamePhase); done.
  - rewrite Hplayer, andb_false_r. done.
Qed.

(** X3. A join with a name that is not empty makes the socket a player under
    that name, trimmed, and leaves every other player as it was.  A socket
    that was not a player is added after the others and the room has one
    player more; a socket that was a player keeps its place and the room has
    as many players as before. *)
Theorem join_game_adds_or_renames
  (sid nm : string) (w : Server) :
  nm <> "" ->
  let player := {| id := sid; name := trim nm; connected := true |} in
  let w' := (join_game sid (JString nm) w).1 in
  get sid w'.(room).(players) = Some player /\
  (forall k, k <> sid -> get k w'.(room).(players) = get k w.(room).(players)) /\
  (has sid w.(room).(players) = false ->
   w'.(room).(players) = (w.(room).(players) ++ [(sid, player)])%list /\
   size w'.(room).(players) = S (size w.(room).(players))) /\
  (has sid w.(room).(players) = true ->
   keys w'.(room).(players) = keys w.(room).(players) /\
   size w'.(room).(players) = size w.(room).(players)).
Proof.
  intros Hnm. unfold join_game. rewrite bool_decide_eq_false_2 by done. simpl.
  split; [apply get_set_eq|]. split; [intros k Hk; by apply get_set_ne|].
  split; intros Hhas.
  - split; [by apply set_absent | by apply size_set_new].
  - split; [by apply keys_set_has | by apply size_set_has].
Qed.

(** X4. When a socket that is neither a player nor a voter joins and then
    disconnects, the players, the votes and the phase of the room are what
    they were before the join. *)
Theorem join_then_disconnect_restores_room
  (sid nm : string) (w : Server) :
  nm <> "" ->
  has sid w.(room).(players) = false ->
  has sid w.(room).(votes) = false ->
  (disconnect sid (join_game sid (JString nm) w).1).1 = w.
Proof.
  intros Hnm Hplayer Hvote. unfold join_game, disconnect.
  rewrite bool_decide_eq_false_2 by done. simpl.
  assert (Hin : has sid (set sid {| id := sid; name := trim nm; connected := true |}
                           w.(room).(players)) = true).
  { apply has_get. rewrite get_set_eq. by eexists. }
  rewrite Hin. simpl. unfold with_room, with_votes, with_players. simpl.
  rewrite (delete_set_absent _ _ _ Hplayer), (delete_absent _ _ Hvote).
  by destruct w as [[] ?].
Qed.

(** X5. A disconnect of a player removes that socket and nothing else: the
    socket is no longer a player nor a voter, every other player and every
    other vote is as before, and, the keys being unique, the room has one
    player less.  A disconnect of a socket that is not a player changes
    nothing and emits nothing. *)
Theorem disconnect_removes_only_that_socket (sid : string) (w : Server) :
  unique_keys w ->
  let w' := (disconnect sid w).1 in
  has sid w'.(room).(players) = false /\
  (forall k, k <> sid ->
     get k w'.(room).(players) = get k w.(room).(players) /\
     get k w'.(room).(votes) = get k w.(room).(votes)) /\
  (has sid w.(room).(players) = true ->
   has sid w'.(room).(votes) = false /\
   S (size w'.(room).(players)) = size w.(room).(players)) /\
  (has sid w.(room).(players) = false -> disconnect sid w = (w, [])).
Proof.
  intros [Hplayers _]. unfold disconnect.
  destruct (has sid w.(room).(players)) eqn:Hhas; simpl.
  - split; [apply has_delete_eq|].
    split; [intros k Hk; by rewrite !get_delete_ne|].
    split; [|done]. intros _.
    split; [apply has_delete_eq | by apply size_delete_has].
  - repeat split; try done.
Qed.

(** The count that a handler emits is the count of the room it leaves, and
    comes from an event that recorded a vote. *)
Lemma handle_vote_count cfg e w u :
  vote_count_update u ∈ (handle cfg e w).2 ->
  u = {| votedCount := size (handle cfg e w).1.(room).(votes);
         totalPlayers := size (handle cfg e w).1.(room).(players) |} /\
  (0 < size (handle cfg e w).1.(room).(votes))%nat.
Proof.
  destruct e as [sid [nm| |v| |]|]; simpl.
  - unfold join_game. handler_cases; intros Hin; emitted.
  - unfold start_voting. handler_cases; intros Hin; emitted.
  - unfold submit_vote. handler_cases; intros Hin; emitted;
      (split; [by injection Hin as ->|]);
      match goal with
      | |- (0 < size (set ?k ?v ?m))%nat =>
          apply (has_size_pos k), has_get; rewrite get_set_eq; by eexists
      end.
  - intros Hin; emitted.
  - unfold disconnect. handler_cases; intros Hin; emitted.
  - unfold reveal. handler_cases; intros Hin; emitted.
Qed.

(** X6. In any run from the empty room, a vote count that the server emits
    gives the number of votes and the number of players of the room at that
    moment, with at least one vote and no more votes than players. *)
Theorem vote_count_is_within_head_count
  (cfg : Variant) (es : list Event) (e : Event) (u : VoteCountUpdate) :
  vote_count_update u ∈ (handle cfg e (run cfg es initial)).2 ->
  u.(votedCount) = size (run cfg (es ++ [e]) initial).(room).(votes) /\
  u.(totalPlayers) = size (run cfg (es ++ [e]) initial).(room).(players) /\
  (1 <= u.(votedCount))%nat /\
  (u.(votedCount) <= u.(totalPlayers))%nat.
Proof.
  intros [-> Hpos]%handle_vote_count.
  pose proof (votes_no_more_than_players cfg (es ++ [e])) as Hle.
  rewrite run_snoc in *. unfold step in *. simpl. repeat split; [lia|done].
Qed.

(** A server without the countdown never has a callback pending. *)
Lemma immediate_has_no_timer cfg es :
  cfg.(countdown) = false -> (run cfg es initial).(timers) = 0%nat.
Proof.
  intros Hcd. apply (run_invariant cfg (fun w => w.(timers) = 0%nat)); [|done].
  intros e w Hw. unfold step. destruct e as [sid [nm| |v| |]|]; simpl.
  - unfold join_game. handler_cases; done.
  - unfold start_voting. handler_cases; done.
  - unfold submit_vote. rewrite Hcd. handler_cases; done.
  - done.
  - unfold disconnect. handler_cases; done.
  - unfold reveal. rewrite Hw. done.
Qed.

(** The result that a handler emits is the result of the room it leaves. *)
Lemma handle_voting_complete cfg e w r :
  voting_complete r ∈ (handle cfg e w).2 ->
  r = votingResult (handle cfg e w).1.(room) /\
  ((exists sid v, e = FromSocket sid (SubmitVote v)) /\
   (0 < size (handle cfg e w).1.(room).(votes))%nat \/
   e = TimerFired /\ w.(timers) <> 0%nat).
Proof.
  destruct e as [sid [nm| |v| |]|]; simpl.
  - unfold join_game. handler_cases; intros Hin; emitted.
  - unfold start_voting. handler_cases; intros Hin; emitted.
  - unfold submit_vote. handler_cases; intros Hin; emitted.
    split; [by injection Hin as ->|]. left. split; [by eexists _, _|].
    match goal with
    | |- (0 < size (set ?k ?v ?m))%nat =>
        apply (has_size_pos k), has_get; rewrite get_set_eq; by eexists
    end.
  - intros Hin; emitted.
  - unfold disconnect. handler_cases; intros Hin; emitted.
  - unfold reveal. handler_cases; intros Hin; emitted.
    split; [by injection Hin as ->|]. right. split; [done|]. congruence.
Qed.

(** X7. In a server with the immediate reveal, in any run from the empty
    room, a result that is emitted holds at least one vote, the votes of the
    room at that moment, and its average is a number: [NaN] is never
    announced. *)
Theorem immediate_result_is_a_number
  (cfg : Variant) (es : list Event) (e : Event) (r : VotingResult) :
  cfg.(countdown) = false ->
  voting_complete r ∈ (handle cfg e (run cfg es initial)).2 ->
  r.(result_votes) = values (run cfg (es ++ [e]) initial).(room).(votes) /\
  r.(result_votes) <> [] /\
  exists q, r.(result_average) = Num q.
Proof.
  intros Hcd Hin.
  destruct (handle_voting_complete _ _ _ _ Hin) as [-> [[_ Hpos]|[_ Htimer]]];
    [|by rewrite immediate_has_no_timer in Htimer].
  pose proof (recorded_votes_are_numbers cfg (es ++ [e])) as Hnum.
  rewrite run_snoc in *. unfold step in *.
  set (w' := (handle cfg e (run cfg es initial)).1) in *.
  assert (Hne : values w'.(room).(votes) <> []).
  { unfold size in Hpos. destruct w'.(room).(votes); [simpl in Hpos; lia|done]. }
  split; [done|]. split; [done|].
  destruct (average_numbers _ Hne Hnum) as (k & Havg & _). by eexists.
Qed.

Lemma step_entries_keyed cfg e w : entries_keyed w -> entries_keyed (step cfg e w).
Proof.
  unfold entries_keyed, step. intros [Hp Hv].
  destruct e as [sid [nm| |v| |]|]; simpl.
  - unfold join_game. handler_cases; try done. split; [|done].
    intros k p [[= -> ->]|Hin]%entries_set; [done|by apply Hp].
  - unfold start_voting. handler_cases; try done;
      (split; [done|]); by intros k v ?%elem_of_nil.
  - unfold submit_vote. handler_cases; try done; (split; [done|]);
      by intros k x [[= -> ->]|Hin]%entries_set; [|apply Hv].
  - split; [done|]. by intros k v ?%elem_of_nil.
  - unfold disconnect. handler_cases; try done. split.
    + intros k p Hin%entries_delete. by apply Hp.
    + intros k v Hin%entries_delete. by apply Hv.
  - unfold reveal. handler_cases; done.
Qed.

(** X8. In every state reached from the empty room no socket id is twice a
    key of the player map or of the vote map; every player is stored under
    its own id and is marked connected; every vote is stored under the id of
    its voter and carries a card of the deck. *)
Theorem reachable_room_is_well_formed (cfg : Variant) (es : list Event) :
  NoDup (keys (run cfg es initial).(room).(players)) /\
  NoDup (keys (run cfg es initial).(room).(votes)) /\
  (forall k p, (k, p) ∈ (run cfg es initial).(room).(players) ->
     p.(id) = k /\ p.(connected) = true) /\
  (forall k v, (k, v) ∈ (run cfg es initial).(room).(votes) ->
     v.(playerId) = k /\ in_deck cfg (JNumber v.(vote))).
Proof.
  assert (Huniq : unique_keys (run cfg es initial)).
  { apply run_invariant; [apply step_unique_keys|]. split; apply NoDup_nil_2. }
  assert (Hkeyed : entries_keyed (run cfg es initial)).
  { apply run_invariant; [apply step_entries_keyed|].
    split; by intros k x ?%elem_of_nil. }
  assert (Hdeck : votes_in_deck cfg (run cfg es initial)).
  { apply run_invariant; [apply step_votes_in_deck|]. by intros x ?%elem_of_nil. }
  destruct Huniq as [Hp Hv]. destruct Hkeyed as [Hkp Hkv].
  split; [done|]. split; [done|]. split; [done|].
  intros k v Hin. split; [by apply Hkv|].
  apply includes_in_deck, Hdeck. unfold values.
  apply list_elem_of_fmap. by exists (k, v).
Qed.

(** X9. When the callback runs while the room holds no vote, as after every
    voter has left during the countdown, it still moves the room to
    [results] and announces a result with no votes whose average is [NaN]. *)
Theorem reveal_without_votes_announces_NaN (w : Server) :
  w.(timers) <> 0%nat ->
  w.(room).(votes) = [] ->
  (reveal w).1.(room).(gamePhase) = results /\
  (reveal w).2 = [voting_complete {| result_votes := []; result_average := NaN |}].
Proof.
  intros Htimer Hvotes. unfold reveal. destruct w.(timers); [done|]. simpl.
  split; [done|]. unfold votingResult. simpl. by rewrite Hvotes.
Qed.


(** X11. In a server with the immediate reveal, when a player leaves during
    [voting] and every remaining player has voted, the leave itself announces
    no result and the phase stays [voting]; the next vote of the deck by a
    remaining player completes the round: the phase becomes [results] and
    the result of the remaining votes is emitted. *)
Theorem vote_after_leave_completes_round
  (cfg : Variant) (leaver sid : string) (v : jsvalue) (w : Server) :
  cfg.(countdown) = false ->
  w.(room).(gamePhase) = voting ->
  has leaver w.(room).(players) = true ->
  sid <> leaver ->
  has sid w.(room).(players) = true ->
  has sid w.(room).(votes) = true ->
  in_deck cfg v ->
  let w1 := (disconnect leaver w).1 in
  size w1.(room).(votes) = size w1.(room).(players) ->
  w1.(room).(gamePhase) = voting /\
  (forall r, voting_complete r ∉ (disconnect leaver w).2) /\
  (submit_vote cfg sid v w1).1.(room).(gamePhase) = results /\
  (voting_complete (votingResult (submit_vote cfg sid v w1).1.(room))
     ∈ (submit_vote cfg sid v w1).2) /\
  keys (submit_vote cfg sid v w1).1.(room).(votes) = keys w1.(room).(votes).
Proof.
  intros Hcd Hphase Hleaver Hne Hplayer Hvoted Hdeck.
  destruct (Hdeck) as (q & d & -> & _). apply includes_in_deck in Hdeck.
  unfold disconnect. rewrite Hleaver. cbn [fst snd]. intros Hall.
  split; [done|]. split; [intros r Hin; emitted|].
  set (w1 := with_room _ w) in *.
  assert (Hplayer1 : has sid w1.(room).(players) = true)
    by (subst w1; simpl; by rewrite has_delete_ne).
  assert (Hvoted1 : has sid w1.(room).(votes) = true)
    by (subst w1; simpl; by rewrite has_delete_ne).
  destruct (proj1 (has_get _ _) Hplayer1) as [player Hget].
  assert (Hphase1 : w1.(room).(gamePhase) = voting) by done.
  rewrite (submit_vote_accepted _ _ _ _ _ Hphase1 Hget Hdeck), Hcd.
  cbn [votes players with_votes].
  rewrite (size_set_has _ _ _ Hvoted1).
  replace (size w1.(room).(votes) =? size w1.(room).(players))%nat with true
    by (symmetry; apply Nat.eqb_eq; exact Hall).
  simpl. split; [done|]. split; [right; left|]. by apply keys_set_has.
Qed.

Lemma votes_within_numbers lo hi vs : votes_within lo hi vs -> Forall is_number vs.
Proof.
  intros Hvs. eapply Forall_impl; [exact Hvs|]. intros v (q & Hq & _). by exists q.
Qed.

Lemma sum_within lo hi vs :
  votes_within lo hi vs ->
  (inject_Z lo * inject_Z (Z.of_nat (length vs))
     <= foldr Qplus 0 (vote_value <$> vs))%Q /\
  (foldr Qplus 0 (vote_value <$> vs)
     <= inject_Z hi * inject_Z (Z.of_nat (length vs)))%Q.
Proof.
  induction 1 as [|v vs (q & Hq & Hlo & Hhi) _ [IHlo IHhi]].
  - simpl. change (inject_Z (Z.of_nat 0)) with 0%Q.
    generalize (inject_Z lo) (inject_Z hi). intros a b. split; lra.
  - rewrite fmap_cons. cbn [foldr length]. unfold vote_value at 1 3. rewrite Hq.
    rewrite Nat2Z.inj_succ, <- Z.add_1_r, inject_Z_plus.
    change (inject_Z 1) with 1%Q.
    revert Hlo Hhi IHlo IHhi.
    generalize (inject_Z lo) (inject_Z hi) (inject_Z (Z.of_nat (length vs)))
               (foldr Qplus 0%Q (vote_value <$> vs)).
    intros a b n s Hlo Hhi IHlo IHhi. split; lra.
Qed.

(** X12. The average of at least one vote, all of them numbers from [lo] to
    [hi], both whole, is itself from [lo] to [hi]: the rounding to a tenth
    never takes it past the lowest or the highest card played.  When every
    vote is the same card the average is that card. *)
Theorem average_is_within_the_votes (lo hi : Z) (vs : list Vote) :
  vs <> [] ->
  votes_within lo hi vs ->
  exists r,
    average vs = Num r /\
    (inject_Z lo <= r)%Q /\ (r <= inject_Z hi)%Q /\
    (lo = hi -> (r == inject_Z lo)%Q).
Proof.
  intros Hne Hvs.
  destruct (average_numbers _ Hne (votes_within_numbers _ _ _ Hvs))
    as (k & Havg & Hk & Hk').
  destruct (sum_within _ _ _ Hvs) as [Hlo Hhi].
  assert (Hn : (0 < inject_Z (Z.of_nat (length vs)))%Q).
  { change 0%Q with (inject_Z 0). rewrite <- Zlt_Qlt. destruct vs; [done|].
    simpl. lia. }
  assert (Hmlo : (inject_Z lo <= mean vs)%Q) by (by apply Qle_shift_div_l).
  assert (Hmhi : (mean vs <= inject_Z hi)%Q) by (by apply Qle_shift_div_r).
  assert (Hzlo : (10 * lo <= k)%Z).
  { assert (Hlt : (inject_Z (10 * lo) < inject_Z (k + 1))%Q).
    { rewrite inject_Z_mult, inject_Z_plus.
      change (inject_Z 10) with 10%Q. change (inject_Z 1) with 1%Q.
      revert Hk' Hmlo. generalize (inject_Z lo) (inject_Z k) (mean vs).
      intros; lra. }
    rewrite <- Zlt_Qlt in Hlt. lia. }
  assert (Hzhi : (k <= 10 * hi)%Z).
  { assert (Hlt : (inject_Z k < inject_Z (10 * hi + 1))%Q).
    { rewrite inject_Z_plus, inject_Z_mult.
      change (inject_Z 10) with 10%Q. change (inject_Z 1) with 1%Q.
      revert Hk Hmhi. generalize (inject_Z hi) (inject_Z k) (mean vs).
      intros; lra. }
    rewrite <- Zlt_Qlt in Hlt. lia. }
  assert (Hrlo : (inject_Z lo <= inject_Z k / 10)%Q).
  { rewrite Zle_Qle in Hzlo. rewrite inject_Z_mult in Hzlo.
    change (inject_Z 10) with 10%Q in Hzlo.
    revert Hzlo. generalize (inject_Z lo) (inject_Z k). intros; by_tenths. }
  assert (Hrhi : (inject_Z k / 10 <= inject_Z hi)%Q).
  { rewrite Zle_Qle in Hzhi. rewrite inject_Z_mult in Hzhi.
    change (inject_Z 10) with 10%Q in Hzhi.
    revert Hzhi. generalize (inject_Z hi) (inject_Z k). intros; by_tenths. }
  exists (inject_Z k / 10)%Q. split; [done|]. split; [done|]. split; [done|].
  intros <-. by apply Qle_antisym.
Qed.

(** ** Trimming *)

Lemma trim_start_eq s :
  trim_start s =
  match s with
  | EmptyString => EmptyString
  | String a s1 =>
      if is_white_space (String a EmptyString) then trim_start s1
      else
        match s1 with
        | EmptyString => s
        | String b s2 =>
            if is_white_space (String a (String b EmptyString)) then trim_start s2
            else
              match s2 with
              | EmptyString => s
              | String c s3 =>
                  if is_white_space (String a (String b (String c EmptyString)))
                  then trim_start s3
                  else s
              end
        end
  end.
Proof. by destruct s. Qed.

Lemma trim_end_eq c s :
  trim_end (String c s) =
  if is_white_space (String c (trim_end s)) then EmptyString
  else String c (trim_end s).
Proof. done. Qed.

Lemma trim_start_within n s :
  (String.length s <= n)%nat -> starts_without_space (trim_start s).
Proof.
  unfold starts_without_space. revert s.
  induction n as [|n IH]; intros s Hlen.
  - destruct s; [done|simpl in Hlen; lia].
  - rewrite trim_start_eq.
    destruct s as [|a [|b [|c s3]]]; [done|..]; simpl in Hlen; unfold starts_with_space;
      repeat match goal with
             | |- context [if is_white_space ?x then _ else _] =>
                 destruct (is_white_space x) eqn:?
             end;
      try (apply IH; simpl; lia);
      fold (starts_with_space EmptyString); simpl;
      by repeat match goal with H : is_white_space _ = false |- _ =>
                  rewrite H; clear H end.
Qed.

Lemma trim_start_starts_without_space s : starts_without_space (trim_start s).
Proof. by apply (trim_start_within (String.length s)). Qed.

Lemma trim_start_fixed s : starts_without_space s -> trim_start s = s.
Proof.
  unfold starts_without_space, starts_with_space. rewrite trim_start_eq.
  destruct s as [|a [|b [|c s3]]]; [done|..];
    repeat match goal with
           | |- context [is_white_space ?x] => destruct (is_white_space x)
           end; simpl; done.
Qed.

Lemma trim_end_starts_without_space s :
  starts_without_space s -> starts_without_space (trim_end s).
Proof.
  unfold starts_without_space.
  destruct s as [|a [|b [|c s3]]]; [done|..]; rewrite ?trim_end_eq;
    try generalize (trim_end s3); intros;
    change (trim_end EmptyString) with EmptyString in *;
    unfold starts_with_space in H;
    repeat match goal with
           | H : _ || _ = false |- _ => apply orb_false_elim in H as [? H]
           end;
    repeat match goal with
           | |- context [if is_white_space ?x then _ else _] =>
               destruct (is_white_space x) eqn:?
           end;
    try discriminate;
    unfold starts_with_space;
    by repeat match goal with H : is_white_space _ = false |- _ =>
                rewrite H; clear H end.
Qed.

Lemma trim_end_idempotent s : trim_end (trim_end s) = trim_end s.
Proof.
  induction s as [|c s IH]; [done|]. rewrite trim_end_eq.
  destruct (is_white_space (String c (trim_end s))) eqn:Hc; [done|].
  by rewrite trim_end_eq, IH, Hc.
Qed.

(** A trimmed string is left as it is by another trim. *)
Lemma trim_idempotent s : trim (trim s) = trim s.
Proof.
  unfold trim.
  rewrite (trim_start_fixed (trim_end (trim_start s))).
  - apply trim_end_idempotent.
  - apply trim_end_starts_without_space, trim_start_starts_without_space.
Qed.

Lemma get_entry {V} k (x : V) (m : JsMap.t V) : get k m = Some x -> (k, x) ∈ m.
Proof.
  induction m as [|[k0 v0] m IH]; simpl; [done|]. case_key.
  - intros [= ->]. subst. left.
  - intros Hget. right. by apply IH.
Qed.

Lemma step_names_trimmed cfg e w : names_trimmed w -> names_trimmed (step cfg e w).
Proof.
  unfold names_trimmed, step. intros [Hp Hv].
  destruct e as [sid [nm| |v| |]|]; simpl.
  - unfold join_game. handler_cases; try done. split; [|done].
    intros k p [[= -> ->]|Hin]%entries_set; [apply trim_idempotent|by eapply Hp].
  - unfold start_voting. handler_cases; try done;
      (split; [done|]); by intros k v ?%elem_of_nil.
  - unfold submit_vote. handler_cases; try done; (split; [done|]);
      (intros k x [[= -> ->]|Hin]%entries_set; [|by eapply Hv]); simpl;
      match goal with
      | H : get _ _ = Some ?p |- trim (name ?p) = _ =>
          apply get_entry in H; by eapply Hp
      end.
  - split; [done|]. by intros k v ?%elem_of_nil.
  - unfold disconnect. handler_cases; try done. split.
    + intros k p Hin%entries_delete. by eapply Hp.
    + intros k v Hin%entries_delete. by eapply Hv.
  - unfold reveal. handler_cases; done.
Qed.

(** What [trim] strips and what it keeps: the ideographic space, the
    no-break space, the byte order mark and a line feed around a name go, a
    space inside a name stays, an accented letter whose last byte is that of
    the no-break space stays, and a string of white space only becomes
    empty. *)
Example trim_strips_unicode_space :
  trim (utf8 [227; 128; 128; 32; 65; 110; 110; 194; 160; 239; 187; 191; 10]) = "Ann".
Proof. reflexivity. Qed.

Example trim_keeps_inner_space : trim "  Ann Lee " = "Ann Lee".
Proof. reflexivity. Qed.

Example trim_keeps_letters :
  trim (utf8 [195; 160; 32]) = utf8 [195; 160].
Proof. reflexivity. Qed.

Example trim_of_white_space_only :
  trim (utf8 [227; 128; 128; 9; 226; 128; 175]) = "".
Proof. reflexivity. Qed.

(** A trimmed string has nothing left to strip at either end. *)
Lemma trimmed_is_clean s :
  trim s = s ->
  starts_without_space s /\ trim_start s = s /\ trim_end s = s.
Proof.
  intros Hs.
  assert (Hstart : starts_without_space s).
  { rewrite <- Hs. apply trim_end_starts_without_space,
      trim_start_starts_without_space. }
  split; [exact Hstart|]. split; [by apply trim_start_fixed|].
  rewrite <- Hs. apply trim_end_idempotent.
Qed.

(** X13. In every state reached from the empty room the name of every player,
    and the name on every vote, is a trimmed string: [trim] gives it back
    unchanged, it does not start with a white space character, and neither
    [trimStart] nor [trimEnd] finds anything to strip. *)
Theorem reachable_names_are_trimmed (cfg : Variant) (es : list Event) :
  (forall k p, (k, p) ∈ (run cfg es initial).(room).(players) ->
     trim p.(name) = p.(name) /\ starts_without_space p.(name) /\
     trim_start p.(name) = p.(name) /\ trim_end p.(name) = p.(name)) /\
  (forall k v, (k, v) ∈ (run cfg es initial).(room).(votes) ->
     trim v.(playerName) = v.(playerName) /\ starts_without_space v.(playerName) /\
     trim_start v.(playerName) = v.(playerName) /\
     trim_end v.(playerName) = v.(playerName)).
Proof.
  assert (Hinv : names_trimmed (run cfg es initial)).
  { apply run_invariant; [apply step_names_trimmed|].
    split; by intros k x ?%elem_of_nil. }
  destruct Hinv as [Hp Hv].
  split; intros k x Hin; (split; [|apply trimmed_is_clean]);
    by (eapply Hp || eapply Hv).
Qed.

(** ** The client and the server *)

(** X14. The join form emits at most one message, a [join-game] of its socket
    whose name is the typed name trimmed and is not empty; otherwise it emits
    nothing and the client state is unchanged.  Whatever the state of the
    server, it accepts such a join: the socket becomes a player under exactly
    the name that was sent. *)
Theorem client_join_is_accepted
  (cfg : Variant) (c : App.State) (e : Event) (w : Server) :
  e ∈ (App.handleJoinGame c).2 ->
  exists sid,
    c.(App.socket) = Some sid /\
    trim c.(App.playerName) <> "" /\
    (App.handleJoinGame c).2
      = [FromSocket sid (JoinGame (JString (trim c.(App.playerName))))] /\
    (App.handleJoinGame c).1.(App.isJoined) = true /\
    get sid (step cfg e w).(room).(players)
      = Some {| id := sid; name := trim c.(App.playerName); connected := true |}.
Proof.
  unfold App.handleJoinGame. destruct c.(App.socket) as [sid|]; simpl;
    [|by intros ?%elem_of_nil].
  case_key; simpl; [by intros ?%elem_of_nil|].
  intros [->|Hin%elem_of_nil]%elem_of_cons; [|done].
  exists sid. repeat split; try done.
  unfold step, handle. rewrite (join_game_accepted sid _ w) by done.
  by rewrite trim_idempotent.
Qed.

(** X15. Take a client that receives what the server emits to the room.  If
    it showed the players and the phase of the server before an event, or if
    the event makes the server emit a state snapshot, then after the messages
    of that event have reached it the client shows the players and the phase
    that the server now holds. *)
Theorem client_view_follows_server
  (cfg : Variant) (e : Event) (w : Server) (c : App.State) :
  in_sync c w \/ (exists u, game_state_update u ∈ (handle cfg e w).2) ->
  in_sync (App.deliver (handle cfg e w).2 c) (handle cfg e w).1.
Proof.
  unfold in_sync.
  destruct e as [sid [nm| |v| |]|]; simpl.
  - unfold join_game. handler_cases; intros [[Hp Hph]|[u Hin]]; emitted; done.
  - unfold start_voting. handler_cases; intros [[Hp Hph]|[u Hin]]; emitted; done.
  - unfold submit_vote. handler_cases; intros [[Hp Hph]|[u Hin]]; emitted; done.
  - intros _. done.
  - unfold disconnect. handler_cases; intros [[Hp Hph]|[u Hin]]; emitted; done.
  - unfold reveal. handler_cases; intros [[Hp Hph]|[u Hin]]; emitted; done.
Qed.

(** X16. Take a client with a socket that is a player, showing the phase of
    the server, during [voting].  A click on a card marks the card as
    selected and emits one [submit-vote] of that socket with the value of the
    card.  A server that has the card in its deck records it as the vote of
    that player, under the player's name; a server that has not ignores the
    message, so that the client shows a selected card that the room does not
    hold. *)
Theorem client_card_reaches_the_server
  (cfg : Variant) (c : App.State) (sid : string) (value : number)
  (w : Server) (player : Player) :
  c.(App.socket) = Some sid ->
  in_sync c w ->
  w.(room).(gamePhase) = voting ->
  get sid w.(room).(players) = Some player ->
  (App.handleCardSelect value c).2 = [FromSocket sid (SubmitVote (JNumber value))] /\
  (App.handleCardSelect value c).1.(App.selectedCard) = Some value /\
  (in_deck cfg (JNumber value) ->
   get sid (run cfg (App.handleCardSelect value c).2 w).(room).(votes)
     = Some {| playerId := sid; playerName := player.(name); vote := value |}) /\
  (~ in_deck cfg (JNumber value) ->
   run cfg (App.handleCardSelect value c).2 w = w /\
   (handle cfg (FromSocket sid (SubmitVote (JNumber value))) w).2 = []).
Proof.
  intros Hsocket [_ Hshown] Hphase Hget. unfold App.handleCardSelect.
  rewrite Hshown, Hphase, Hsocket. cbn [Phase_eqb fst snd App.selectedCard].
  split; [done|]. split; [done|]. unfold run, step, handle. cbn [fold_left].
  split.
  - intros Hdeck%includes_in_deck.
    rewrite (submit_vote_accepted _ _ _ _ _ Hphase Hget Hdeck).
    cbv zeta. destruct (_ =? _)%nat; [destruct cfg.(countdown)|];
      apply get_set_eq.
  - intros Hout. by rewrite (not_in_deck_rejected _ _ _ _ Hout).
Qed.

(** X17. Each of the five cards of the client is a card of the deck of the
    first server.  The second server has the cards 1, 2, 3 and 5 in its deck
    and not the card 10. *)
Theorem client_cards_and_server_decks (z : Z) :
  z ∈ App.cardValues ->
  in_deck game_server (JNumber (Num (inject_Z z))) /\
  (in_deck room_server (JNumber (Num (inject_Z z))) <-> z <> 10%Z).
Proof.
  unfold App.cardValues. intros Hz.
  repeat (apply elem_of_cons in Hz as [->|Hz]); [..|by apply elem_of_nil in Hz];
    (split; [by apply includes_in_deck|]);
    (split; [intros Hin%includes_in_deck; done || discriminate Hin
            |intros Hne; done || by apply includes_in_deck]).
Qed.

(** X18. Take a client that receives what the server emits to the room, in
    any run from the empty room.  When an event makes the server emit
    [voting-started], the client ends with no card selected, no result held,
    and showing the phase [voting].  When an event makes it emit a result,
    the client ends showing the phase [results] and holding that result as
    JSON delivers it: the same votes, every one of them a number, and the
    same average when it is a number, or [null] when the server computed
    [NaN]. *)
Theorem client_follows_the_round
  (cfg : Variant) (es : list Event) (e : Event) (c : App.State) :
  (voting_started ∈ (handle cfg e (run cfg es initial)).2 ->
   (App.deliver (handle cfg e (run cfg es initial)).2 c).(App.selectedCard) = None /\
   (App.deliver (handle cfg e (run cfg es initial)).2 c).(App.results) = None /\
   (App.deliver (handle cfg e (run cfg es initial)).2
      c).(App.gameState).(update_gamePhase) = voting) /\
  (forall r, voting_complete r ∈ (handle cfg e (run cfg es initial)).2 ->
   (App.deliver (handle cfg e (run cfg es initial)).2
      c).(App.gameState).(update_gamePhase) = results /\
   Forall is_number r.(result_votes) /\
   exists received,
     (App.deliver (handle cfg e (run cfg es initial)).2 c).(App.results)
       = Some received /\
     received.(App.votes) = r.(result_votes) /\
     (forall q, r.(result_average) = Num q ->
                received.(App.average) = JNumber (Num q)) /\
     (r.(result_average) = NaN -> received.(App.average) = JNull)).
Proof.
  split.
  - generalize (run cfg es initial). intros w.
    destruct e as [sid [nm| |v| |]|]; simpl.
    + unfold join_game. handler_cases; intros Hin; emitted.
    + unfold start_voting. handler_cases; intros Hin; emitted; done.
    + unfold submit_vote. handler_cases; intros Hin; emitted.
    + intros Hin; emitted.
    + unfold disconnect. handler_cases; intros Hin; emitted.
    + unfold reveal. handler_cases; intros Hin; emitted.
  - intros r Hin.
    assert (Hnum : Forall is_number r.(result_votes)).
    { destruct (handle_voting_complete _ _ _ _ Hin) as [-> _].
      pose proof (recorded_votes_are_numbers cfg (es ++ [e])) as Hvotes.
      by rewrite run_snoc in Hvotes. }
    assert (Hheld :
      (App.deliver (handle cfg e (run cfg es initial)).2
         c).(App.gameState).(update_gamePhase) = results /\
      (App.deliver (handle cfg e (run cfg es initial)).2 c).(App.results)
        = Some (App.received r)).
    { revert Hin. generalize (run cfg es initial). intros w.
      destruct e as [sid [nm| |v| |]|]; simpl.
      + unfold join_game. handler_cases; intros Hin; emitted.
      + unfold start_voting. handler_cases; intros Hin; emitted.
      + unfold submit_vote. handler_cases; intros Hin; emitted;
          by injection Hin as ->.
      + intros Hin; emitted.
      + unfold disconnect. handler_cases; intros Hin; emitted.
      + unfold reveal. handler_cases; intros Hin; emitted;
          by injection Hin as ->. }
    destruct Hheld as [Hphase Hheld].
    split; [exact Hphase|]. split; [exact Hnum|].
    exists (App.received r). split; [exact Hheld|]. split; [done|].
    unfold App.received; simpl. split; [by intros q ->|by intros ->].
Qed.

(** ** The round as a whole *)

(** X19. The server never changes its state silently: whatever the event,
    when its handling emits nothing to the room, the players, the votes, the
    phase and the pending callbacks are exactly as before. *)
Theorem silent_event_changes_nothing (cfg : Variant) (e : Event) (w : Server) :
  (handle cfg e w).2 = [] -> step cfg e w = w.
Proof.
  unfold step. destruct e as [sid [nm| |v| |]|]; simpl.
  - unfold join_game. handler_cases; done.
  - unfold start_voting. handler_cases; done.
  - unfold submit_vote. handler_cases; done.
  - done.
  - unfold disconnect. handler_cases; done.
  - unfold reveal. handler_cases; done.
Qed.

(** The result of the immediate reveal is emitted when the votes are as many
    as the players. *)
Lemma immediate_result_all_voted cfg e w r :
  cfg.(countdown) = false ->
  w.(timers) = 0%nat ->
  voting_complete r ∈ (handle cfg e w).2 ->
  size (handle cfg e w).1.(room).(votes) = size (handle cfg e w).1.(room).(players).
Proof.
  intros Hcd Htimer. destruct e as [sid [nm| |v| |]|]; simpl.
  - unfold join_game. handler_cases; intros Hin; emitted.
  - unfold start_voting. handler_cases; intros Hin; emitted.
  - unfold submit_vote. rewrite Hcd. handler_cases; intros Hin; emitted.
    match goal with H : (_ =? _)%nat = true |- _ => by apply Nat.eqb_eq in H end.
  - intros Hin; emitted.
  - unfold disconnect. handler_cases; intros Hin; emitted.
  - unfold reveal. rewrite Htimer. simpl. intros Hin; emitted.
Qed.

(** X20. In a server with the immediate reveal, in any run from the empty
    room, a result that is emitted holds one vote for each player of the room
    at that moment: as many votes as players, and for every player a vote
    cast under that player's id. *)
Theorem immediate_result_has_every_player
  (cfg : Variant) (es : list Event) (e : Event) (r : VotingResult) :
  cfg.(countdown) = false ->
  voting_complete r ∈ (handle cfg e (run cfg es initial)).2 ->
  length r.(result_votes) = size (run cfg (es ++ [e]) initial).(room).(players) /\
  forall k, k ∈ keys (run cfg (es ++ [e]) initial).(room).(players) ->
    exists v, (v ∈ r.(result_votes)) /\ v.(playerId) = k.
Proof.
  intros Hcd Hin.
  pose proof (immediate_result_all_voted _ _ _ _ Hcd
                (immediate_has_no_timer cfg es Hcd) Hin) as Hall.
  destruct (handle_voting_complete _ _ _ _ Hin) as [-> _].
  assert (Hsub : votes_of_players (run cfg (es ++ [e]) initial)).
  { apply run_invariant; [apply step_votes_of_players|]. apply list_subseteq_nil. }
  assert (Huniq : unique_keys (run cfg (es ++ [e]) initial)).
  { apply run_invariant; [apply step_unique_keys|]. split; apply NoDup_nil_2. }
  assert (Hkeyed : entries_keyed (run cfg (es ++ [e]) initial)).
  { apply run_invariant; [apply step_entries_keyed|].
    split; by intros k x ?%elem_of_nil. }
  rewrite run_snoc in *. unfold step in *.
  set (w' := (handle cfg e (run cfg es initial)).1) in *.
  destruct Huniq as [_ Hvotes]. destruct Hkeyed as [_ Hkv].
  split; [unfold votingResult, values; simpl; by rewrite length_fmap|].
  intros k Hk.
  assert (Hperm : keys w'.(room).(votes) ≡ₚ keys w'.(room).(players)).
  { apply submseteq_length_Permutation.
    - by apply NoDup_submseteq.
    - unfold keys. rewrite !length_fmap. unfold size in Hall. lia. }
  rewrite <- Hperm in Hk. unfold keys in Hk.
  apply list_elem_of_fmap in Hk as ([k' v] & -> & Hentry).
  exists v. split; [|by apply Hkv].
  unfold votingResult, values; simpl. apply list_elem_of_fmap. by exists (k', v).
Qed.

(** X21. The next-round button of a client with a socket emits one
    [next-round] and clears the card and the result the client holds.  The
    server then is in [waiting] with no vote and the same players, whatever
    phase it was in, and once its snapshot has reached the client, the client
    shows these players and [waiting], with no votes, no card and no
    result. *)
Theorem client_next_round_resets
  (cfg : Variant) (c : App.State) (sid : string) (w : Server) :
  c.(App.socket) = Some sid ->
  let c1 := (App.handleNextRound c).1 in
  let w' := run cfg (App.handleNextRound c).2 w in
  let c2 := App.deliver (handle cfg (FromSocket sid NextRound) w).2 c1 in
  (App.handleNextRound c).2 = [FromSocket sid NextRound] /\
  w'.(room).(gamePhase) = waiting /\
  w'.(room).(votes) = [] /\
  w'.(room).(players) = w.(room).(players) /\
  in_sync c2 w' /\
  c2.(App.gameState).(update_votes) = None /\
  c2.(App.selectedCard) = None /\
  c2.(App.results) = None.
Proof.
  intros Hsocket. unfold App.handleNextRound. rewrite Hsocket. simpl.
  unfold in_sync. simpl. repeat split.
Qed.


(** X23. The start button of a client with a socket emits one
    [start-voting].  When the server lets the round start (it asks for no
    head count, or the room has at least the players it asks for), the server
    is in [voting] with no vote and the same players, and once its messages
    have reached the client, the client shows these players and [voting],
    with no card selected and no result held. *)
Theorem client_start_voting_opens_round
  (cfg : Variant) (c : App.State) (sid : string) (w : Server) :
  c.(App.socket) = Some sid ->
  (forall n, cfg.(minPlayers) = Some n -> (n <= size w.(room).(players))%nat) ->
  let w' := run cfg (App.handleStartVoting c).2 w in
  let c' := App.deliver (handle cfg (FromSocket sid StartVoting) w).2
              (App.handleStartVoting c).1 in
  (App.handleStartVoting c).2 = [FromSocket sid StartVoting] /\
  w'.(room).(gamePhase) = voting /\
  w'.(room).(votes) = [] /\
  w'.(room).(players) = w.(room).(players) /\
  in_sync c' w' /\
  c'.(App.selectedCard) = None /\
  c'.(App.results) = None.
Proof.
  intros Hsocket Hguard. unfold App.handleStartVoting. rewrite Hsocket.
  unfold run, step, handle, start_voting. cbn [fold_left fst snd].
  destruct cfg.(minPlayers) as [n|].
  - specialize (Hguard n eq_refl). apply Nat.leb_le in Hguard. rewrite Hguard.
    unfold in_sync. simpl. repeat split.
  - unfold in_sync. simpl. repeat split.
Qed.

(** ** The further theorems at work *)

Lemma reachable_unique_keys cfg es : unique_keys (run cfg es initial).
Proof.
  apply run_invariant; [apply step_unique_keys|]. split; apply NoDup_nil_2.
Qed.

Lemma snapshot_shows_the_new_state_witness :
  update_players
    {| update_players := [{| id := "a"; name := "Ann"; connected := true |}];
       update_gamePhase := waiting; update_votes := None |}
    = values (handle room_server ann_joins initial).1.(room).(players) /\
  update_votes
    {| update_players := [{| id := "a"; name := "Ann"; connected := true |}];
       update_gamePhase := waiting; update_votes := None |} = None.
Proof.
  destruct (snapshot_shows_the_new_state room_server ann_joins initial
              {| update_players := [{| id := "a"; name := "Ann"; connected := true |}];
                 update_gamePhase := waiting; update_votes := None |})
    as (Hplayers & _ & _ & Hvotes); [left|].
  split; [exact Hplayers | apply Hvotes; discriminate].
Defined.

Lemma vote_count_is_within_head_count_witness :
  (vote_count_update {| votedCount := 1; totalPlayers := 2 |}
     ∈ (handle game_server (FromSocket "a" (SubmitVote (JNumber (Num 3))))
          (run game_server [ann_joins;
                            FromSocket "b" (JoinGame (JString "Bob"));
                            FromSocket "a" StartVoting] initial)).2) /\
  (1 <= 1)%nat /\ (1 <= 2)%nat.
Proof.
  assert (Hin : vote_count_update {| votedCount := 1; totalPlayers := 2 |}
     ∈ (handle game_server (FromSocket "a" (SubmitVote (JNumber (Num 3))))
          (run game_server [ann_joins;
                            FromSocket "b" (JoinGame (JString "Bob"));
                            FromSocket "a" StartVoting] initial)).2) by left.
  split; [exact Hin|].
  destruct (vote_count_is_within_head_count _ _ _ _ Hin) as (_ & _ & Hone & Hle).
  split; [exact Hone | exact Hle].
Defined.

Lemma submit_vote_out_of_turn_is_ignored_witness :
  submit_vote room_server "z" (JNumber (Num 3)) (ann_has_voted room_server)
    = (ann_has_voted room_server, []).
Proof.
  apply (submit_vote_out_of_turn_is_ignored room_server "z" (JNumber (Num 3))
           (ann_has_voted room_server)).
  right. reflexivity.
Defined.

Lemma join_game_adds_or_renames_witness :
  size (join_game "c" (JString " Carol") (ann_has_voted game_server)).1.(room).(players)
    = 3%nat /\
  get "c" (join_game "c" (JString " Carol") (ann_has_voted game_server)).1.(room).(players)
    = Some {| id := "c"; name := "Carol"; connected := true |}.
Proof.
  destruct (join_game_adds_or_renames "c" " Carol" (ann_has_voted game_server))
    as (Hget & _ & Hnew & _); [discriminate|].
  destruct Hnew as [_ Hsize]; [reflexivity|].
  split; [exact Hsize | exact Hget].
Defined.

Lemma join_then_disconnect_restores_room_witness :
  (disconnect "c" (join_game "c" (JString "Carol") (ann_has_voted game_server)).1).1
    = ann_has_voted game_server.
Proof.
  apply (join_then_disconnect_restores_room "c" "Carol" (ann_has_voted game_server));
    [discriminate | reflexivity | reflexivity].
Defined.

Lemma disconnect_removes_only_that_socket_witness :
  has "a" (disconnect "a" (ann_has_voted game_server)).1.(room).(votes) = false /\
  S (size (disconnect "a" (ann_has_voted game_server)).1.(room).(players)) = 2%nat /\
  get "b" (disconnect "a" (ann_has_voted game_server)).1.(room).(players)
    = Some {| id := "b"; name := "Bob"; connected := true |}.
Proof.
  destruct (disconnect_removes_only_that_socket "a" (ann_has_voted game_server))
    as (_ & Hothers & Hgone & _); [apply reachable_unique_keys|].
  destruct Hgone as [Hvote Hsize]; [reflexivity|].
  destruct (Hothers "b") as [Hbob _]; [discriminate|].
  split; [exact Hvote|]. split; [exact Hsize | exact Hbob].
Defined.

Lemma immediate_result_is_a_number_witness :
  exists q, result_average (votingResult (bob_votes game_server).1.(room)) = Num q.
Proof.
  destruct (immediate_result_is_a_number game_server
              [ann_joins;
               FromSocket "b" (JoinGame (JString "Bob"));
               FromSocket "a" StartVoting;
               FromSocket "a" (SubmitVote (JNumber (Num 3)))]
              (FromSocket "b" (SubmitVote (JNumber (Num 5))))
              (votingResult (bob_votes game_server).1.(room)))
    as (_ & _ & Hnumber); [reflexivity | right; left |].
  exact Hnumber.
Defined.

Lemma reachable_room_is_well_formed_witness :
  id {| id := "b"; name := "Bob"; connected := true |} = "b" /\
  in_deck game_server (JNumber (Num 3)).
Proof.
  destruct (reachable_room_is_well_formed game_server
              [ann_joins;
               FromSocket "b" (JoinGame (JString "Bob"));
               FromSocket "a" StartVoting;
               FromSocket "a" (SubmitVote (JNumber (Num 3)))])
    as (_ & _ & Hplayers & Hvotes).
  destruct (Hplayers "b" {| id := "b"; name := "Bob"; connected := true |})
    as [Hid _]; [right; left|].
  destruct (Hvotes "a" {| playerId := "a"; playerName := "Ann"; vote := Num 3 |})
    as [_ Hdeck]; [left|].
  split; [exact Hid | exact Hdeck].
Defined.

Lemma reveal_without_votes_announces_NaN_witness :
  everyone_left.(timers) <> 0%nat /\
  everyone_left.(room).(players) = [] /\
  (reveal everyone_left).2
    = [voting_complete {| result_votes := []; result_average := NaN |}].
Proof.
  split; [discriminate|]. split; [reflexivity|].
  apply (reveal_without_votes_announces_NaN everyone_left);
    [discriminate | reflexivity].
Defined.


Lemma vote_after_leave_completes_round_witness :
  carol_has_not_voted.(room).(gamePhase) = voting /\
  (disconnect "c" carol_has_not_voted).1.(room).(gamePhase) = voting /\
  (submit_vote game_server "a" (JNumber (Num 2))
     (disconnect "c" carol_has_not_voted).1).1.(room).(gamePhase) = results.
Proof.
  split; [reflexivity|].
  destruct (vote_after_leave_completes_round game_server "c" "a" (JNumber (Num 2))
              carol_has_not_voted)
    as (Hstill & _ & Hdone & _);
    [reflexivity | reflexivity | reflexivity | discriminate | reflexivity
    | reflexivity | apply includes_in_deck; reflexivity | reflexivity |].
  split; [exact Hstill | exact Hdone].
Defined.

Lemma average_is_within_the_votes_witness :
  exists r,
    average (values votes_3_5_8.(votes)) = Num r /\
    (inject_Z 3 <= r)%Q /\ (r <= inject_Z 8)%Q.
Proof.
  destruct (average_is_within_the_votes 3 8 (values votes_3_5_8.(votes)))
    as (r & Havg & Hlo & Hhi & _).
  - discriminate.
  - repeat constructor; eexists; (split; [reflexivity|]); split; discriminate.
  - exists r. split; [exact Havg|]. split; [exact Hlo | exact Hhi].
Defined.

Lemma reachable_names_are_trimmed_witness :
  trim "Carol" = "Carol" /\ starts_without_space "Carol" /\
  trim_start "Carol" = "Carol" /\ trim_end "Carol" = "Carol".
Proof.
  destruct (reachable_names_are_trimmed game_server
              [FromSocket "c"
                 (JoinGame (JString (utf8 [227; 128; 128; 67; 97; 114; 111; 108; 194; 160])))])
    as [Hplayers _].
  apply (Hplayers "c" {| id := "c"; name := "Carol"; connected := true |}).
  left.
Defined.

Lemma client_join_is_accepted_witness :
  (App.handleJoinGame ann_types_her_name).2 = [ann_joins] /\
  get "a" (step game_server ann_joins initial).(room).(players)
    = Some {| id := "a"; name := "Ann"; connected := true |}.
Proof.
  destruct (client_join_is_accepted game_server ann_types_her_name ann_joins initial)
    as (sid & Hsocket & _ & Hemit & _ & Hplayer); [left|].
  injection Hsocket as <-. split; [exact Hemit | exact Hplayer].
Defined.

Lemma client_view_follows_server_witness :
  in_sync App.initial initial /\
  in_sync (App.deliver (handle game_server ann_joins initial).2 App.initial)
          (handle game_server ann_joins initial).1.
Proof.
  assert (Hsync : in_sync App.initial initial) by (split; reflexivity).
  split; [exact Hsync|].
  apply (client_view_follows_server game_server ann_joins initial App.initial).
  left. exact Hsync.
Defined.

Lemma client_card_reaches_the_server_witness :
  (App.handleCardSelect (Num 5) (bob_watches game_server)).2
    = [FromSocket "b" (SubmitVote (JNumber (Num 5)))] /\
  get "b" (run game_server (App.handleCardSelect (Num 5) (bob_watches game_server)).2
             (ann_has_voted game_server)).(room).(votes)
    = Some {| playerId := "b"; playerName := "Bob"; vote := Num 5 |} /\
  run room_server (App.handleCardSelect (Num 10) (bob_watches room_server)).2
      (ann_has_voted room_server)
    = ann_has_voted room_server.
Proof.
  destruct (client_card_reaches_the_server game_server (bob_watches game_server)
              "b" (Num 5) (ann_has_voted game_server)
              {| id := "b"; name := "Bob"; connected := true |})
    as (Hemit & _ & Hrecorded & _);
    [reflexivity | split; reflexivity | reflexivity | reflexivity |].
  destruct (client_card_reaches_the_server room_server (bob_watches room_server)
              "b" (Num 10) (ann_has_voted room_server)
              {| id := "b"; name := "Bob"; connected := true |})
    as (_ & _ & _ & Hignored);
    [reflexivity | split; reflexivity | reflexivity | reflexivity |].
  split; [exact Hemit|]. split.
  - apply Hrecorded. apply includes_in_deck. reflexivity.
  - apply Hignored. intros Hin%includes_in_deck. discriminate Hin.
Defined.

Lemma client_cards_and_server_decks_witness :
  (10%Z ∈ App.cardValues) /\
  in_deck game_server (JNumber (Num (inject_Z 10))) /\
  ~ in_deck room_server (JNumber (Num (inject_Z 10))).
Proof.
  assert (Hcard : 10%Z ∈ App.cardValues) by (do 4 right; left).
  destruct (client_cards_and_server_decks 10 Hcard) as [Hfirst Hsecond].
  split; [exact Hcard|]. split; [exact Hfirst|].
  intros Hin. by apply Hsecond in Hin.
Defined.

Lemma client_follows_the_round_witness :
  (App.deliver (bob_votes game_server).2
     (bob_watches game_server)).(App.gameState).(update_gamePhase) = results /\
  exists received,
    (App.deliver (bob_votes game_server).2 (bob_watches game_server)).(App.results)
      = Some received /\
    received.(App.average) = JNumber (Num (40 # 10)).
Proof.
  destruct (client_follows_the_round game_server
              [ann_joins;
               FromSocket "b" (JoinGame (JString "Bob"));
               FromSocket "a" StartVoting;
               FromSocket "a" (SubmitVote (JNumber (Num 3)))]
              (FromSocket "b" (SubmitVote (JNumber (Num 5))))
              (bob_watches game_server))
    as [_ Hresult].
  destruct (Hresult (votingResult (bob_votes game_server).1.(room)))
    as (Hphase & _ & received & Hheld & _ & Hnumber & _); [right; left|].
  split; [exact Hphase|].
  exists received. split; [exact Hheld|].
  apply (Hnumber (40 # 10)%Q). reflexivity.
Defined.

Lemma silent_event_changes_nothing_witness :
  (handle game_server (FromSocket "a" StartVoting)
     (step game_server ann_joins initial)).2 = [] /\
  step game_server (FromSocket "a" StartVoting) (step game_server ann_joins initial)
    = step game_server ann_joins initial.
Proof.
  split; [reflexivity|].
  apply (silent_event_changes_nothing game_server (FromSocket "a" StartVoting)
           (step game_server ann_joins initial)).
  reflexivity.
Defined.

Lemma immediate_result_has_every_player_witness :
  length (result_votes (votingResult (bob_votes game_server).1.(room))) = 2%nat /\
  exists v,
    (v ∈ result_votes (votingResult (bob_votes game_server).1.(room))) /\
    v.(playerId) = "b".
Proof.
  destruct (immediate_result_has_every_player game_server
              [ann_joins;
               FromSocket "b" (JoinGame (JString "Bob"));
               FromSocket "a" StartVoting;
               FromSocket "a" (SubmitVote (JNumber (Num 3)))]
              (FromSocket "b" (SubmitVote (JNumber (Num 5))))
              (votingResult (bob_votes game_server).1.(room)))
    as [Hcount Hevery]; [reflexivity | right; left |].
  split; [exact Hcount|]. apply Hevery. right. left.
Defined.

Lemma client_next_round_resets_witness :
  (run game_server (App.handleNextRound (bob_watches game_server)).2
     (bob_votes game_server).1).(room).(gamePhase) = waiting /\
  in_sync
    (App.deliver (handle game_server (FromSocket "b" NextRound)
                    (bob_votes game_server).1).2
       (App.handleNextRound (bob_watches game_server)).1)
    (run game_server (App.handleNextRound (bob_watches game_server)).2
       (bob_votes game_server).1).
Proof.
  destruct (client_next_round_resets game_server (bob_watches game_server) "b"
              (bob_votes game_server).1)
    as (_ & Hwaiting & _ & _ & Hsync & _); [reflexivity|].
  split; [exact Hwaiting | exact Hsync].
Defined.


Lemma client_start_voting_opens_round_witness :
  (size (ann_has_voted game_server).(room).(players) = 2)%nat /\
  (run game_server (App.handleStartVoting (bob_watches game_server)).2
     (ann_has_voted game_server)).(room).(votes) = [] /\
  (run game_server (App.handleStartVoting (bob_watches game_server)).2
     (ann_has_voted game_server)).(room).(gamePhase) = voting.
Proof.
  split; [reflexivity|].
  destruct (client_start_voting_opens_round game_server (bob_watches game_server)
              "b" (ann_has_voted game_server))
    as (_ & Hvoting & Hvotes & _);
    [reflexivity | intros n [= <-]; vm_compute; lia |].
  split; [exact Hvotes | exact Hvoting].
Defined.

(** In the run that refutes the first statement of C7 the late vote is
    ignored, and the callback then announces a result with no votes. *)
Example late_vote_after_next_round_is_dropped :
  handle room_server (FromSocket "c" (SubmitVote (JNumber (Num 8))))
    (run room_server [FromSocket "c" (JoinGame (JString "Carol"));
                      FromSocket "a" NextRound]
       (bob_votes room_server).1)
  = (run room_server [FromSocket "c" (JoinGame (JString "Carol"));
                      FromSocket "a" NextRound]
       (bob_votes room_server).1, []) /\
  (reveal (run room_server [FromSocket "c" (JoinGame (JString "Carol"));
                            FromSocket "a" NextRound]
             (bob_votes room_server).1)).2
  = [voting_complete {| result_votes := []; result_average := NaN |}].
Proof. split; reflexivity. Qed.

(** The client that receives the result of an empty room holds the average
    [null]. *)
Example client_holds_null_average :
  (App.deliver (reveal everyone_left).2 App.initial).(App.results)
  = Some {| App.votes := []; App.average := JNull |}.
Proof. reflexivity. Qed.
